(** * SDXL model merger: the checkpoint-merging core of merge.py and app.py

    A shallow embedding of [SDXLModelMerger] (merge.py) and of
    [SDXLMergerInterface.merge_models] (app.py), and the properties of
    the merge that the specification states.

    Data:
    - a state dict (the result of safetensors' [load_file]) is a finite
      map from key to tensor, [gmap string tensor];
    - a tensor carries its dtype, its shape and its elements in row-major
      order;
    - torch's and Python's floating-point operations are not defined
      here: they are the fields of the class [Arith], so every theorem
      holds for whatever these operations compute.  [exact_arith]
      instantiates them with exact rationals, to run the model;
    - Python dicts that are iterated ([models], [loaded_models]) are
      association lists in insertion order;
    - storage is a finite map from path to file. *)

From Stdlib Require Import QArith Qcanon.
From stdpp Require Import base option list sorting strings gmap.

(** ** Tensors *)

(** The element types a safetensors checkpoint stores. *)
Inductive dtype := F64 | F32 | F16 | BF16 | I64 | I32 | I16 | I8 | U8 | BOOL.

Global Instance dtype_eq_dec : EqDecision dtype.
Proof. solve_decision. Defined.

Record tensor (E : Type) := Tensor {
  t_dtype : dtype;
  t_shape : list nat;
  t_data : list E
}.
Arguments Tensor {E}.
Arguments t_dtype {E}.
Arguments t_shape {E}.
Arguments t_data {E}.

Global Instance tensor_eq_dec `{EqDecision E} : EqDecision (tensor E).
Proof. solve_decision. Defined.

(** [numel]: the number of elements a shape announces. *)
Definition numel (shape : list nat) : nat := foldr Nat.mul 1 shape.

(** A loaded tensor holds as many elements as its shape says. *)
Definition well_formed {E} (t : tensor E) : Prop :=
  length (t_data t) = numel (t_shape t).

(** ** Arithmetic of the libraries

    [W] is the type of Python floats (the weights), [E] the type of
    tensor elements.  The element operations take the dtype they are
    computed in. *)
Class Arith (E W : Type) := {
  py_zero : W;                       (* 0, the start value of sum() *)
  py_one : W;                        (* 1.0 *)
  py_tol : W;                        (* 0.01 *)
  py_add : W → W → W;
  py_sub : W → W → W;
  py_div : W → W → W;
  py_abs : W → W;
  py_gtb : W → W → bool;             (* a > b *)
  py_eqb : W → W → bool;             (* a == b *)
  convert : dtype → dtype → E → E;   (* element of Tensor.to(dtype) *)
  e_mul : dtype → E → W → E;         (* element of tensor * scalar *)
  e_add : dtype → E → E → E;         (* element of tensor + tensor *)
  e_div : dtype → E → W → E          (* element of tensor / scalar *)
}.

(** Python's [sum(ws)]: a left fold from 0. *)
Definition py_sum `{!Arith E W} (ws : list W) : W := foldl py_add py_zero ws.

Section TensorOps.
Context `{!Arith E W}.

(** [tensor.float()]: the tensor itself when it is float32 already,
    else its conversion. *)
Definition float_ (t : tensor E) : tensor E :=
  if decide (t_dtype t = F32) then t
  else Tensor F32 (t_shape t) (convert (t_dtype t) F32 <$> t_data t).

(** [tensor * weight] and [tensor / weight] with a Python float.  A
    floating tensor keeps its dtype; both are only applied to results
    of [float_]. *)
Definition mul_scalar (t : tensor E) (w : W) : tensor E :=
  Tensor (t_dtype t) (t_shape t) ((λ x, e_mul (t_dtype t) x w) <$> t_data t).

Definition div_scalar (t : tensor E) (w : W) : tensor E :=
  Tensor (t_dtype t) (t_shape t) ((λ x, e_div (t_dtype t) x w) <$> t_data t).

(** [acc += other] and [a + b] for tensors of one dtype and one shape
    (the source adds only float32 tensors whose shapes were compared
    before). *)
Definition add_tensor (acc other : tensor E) : tensor E :=
  Tensor (t_dtype acc) (t_shape acc)
         (zip_with (e_add (t_dtype acc)) (t_data acc) (t_data other)).
End TensorOps.

(** ** Exceptions and results *)

Inductive exn :=
  | FileNotFoundError (path : string)
  | LoadError (path : string)        (* whatever load_file raises *)
  | IndexError
  | KeyError (key : string)
  | TypeError.

Global Instance exn_eq_dec : EqDecision exn.
Proof. solve_decision. Defined.

Inductive result (A : Type) :=
  | Ok (a : A)
  | Raise (e : exn).
Arguments Ok {A}.
Arguments Raise {A}.

Global Instance result_bind : MBind result := λ A B k r,
  match r with
  | Ok a => k a
  | Raise e => Raise e
  end.

(** ** Storage *)

Inductive file (E : Type) :=
  | Safetensors (state_dict : gmap string (tensor E))
  | Unreadable.
Arguments Safetensors {E}.
Arguments Unreadable {E}.

(** [models_dir / name], for a relative [name]. *)
Definition joinpath (dir name : string) : string := dir +:+ "/" +:+ name.
Global Arguments joinpath : simpl never.

(** safetensors' [load_file]. *)
Definition load_file {E} (fs : gmap string (file E)) (path : string)
  : result (gmap string (tensor E)) :=
  match fs !! path with
  | Some (Safetensors sd) => Ok sd
  | _ => Raise (LoadError path)
  end.

(** safetensors' [save_file]. *)
Definition save_file {E} (sd : gmap string (tensor E)) (path : string)
    (fs : gmap string (file E)) : gmap string (file E) :=
  <[path := Safetensors sd]> fs.

(** ** Python dicts in insertion order *)

(** [d[k] = v]: in place when [k] is a key already, else appended. *)
Fixpoint dict_set {V} (k : string) (v : V) (d : list (string * V))
  : list (string * V) :=
  match d with
  | [] => [(k, v)]
  | (k', v') :: d' =>
      if decide (k' = k) then (k, v) :: d' else (k', v') :: dict_set k v d'
  end.

(** [sorted(keys)] on strings: the order of [String.le] is that of
    Python's [str] comparison, lexicographic on the characters. *)
Definition sorted (keys : list string) : list string :=
  merge_sort String.le keys.

(** ** merge.py: [SDXLModelMerger] *)

(** What the script prints and the report is read from: the warning on
    the weights, the progress line and the two skip messages.  The other
    lines it prints are not modelled. *)
Inductive event (W : Type) :=
  | WeightsWarning (total_weight : W)
  | Progress (i n merged skipped : nat)
  | SkipShapeMismatch (key : string)
  | SkipError (key : string) (e : exn).
Arguments WeightsWarning {W}.
Arguments Progress {W}.
Arguments SkipShapeMismatch {W}.
Arguments SkipError {W}.

(** An entry of [loaded_models]. *)
Record model_data (E W : Type) := ModelData {
  state_dict : gmap string (tensor E);
  weight : W
}.
Arguments ModelData {E W}.
Arguments state_dict {E W}.
Arguments weight {E W}.

(** The variables of the key loop. *)
Record merge_state (E W : Type) := MergeState {
  merged_state_dict : gmap string (tensor E);
  skipped_keys : list string;
  merged_count : nat;
  output : list (event W)
}.
Arguments MergeState {E W}.
Arguments merged_state_dict {E W}.
Arguments skipped_keys {E W}.
Arguments merged_count {E W}.
Arguments output {E W}.

(** What the body of the key loop does with one key. *)
Inductive key_outcome (E : Type) :=
  | Merged (merged_tensor : tensor E)
  | ShapeMismatch
  | Failed (e : exn).
Arguments Merged {E}.
Arguments ShapeMismatch {E}.
Arguments Failed {E}.

Section Merger.
Context `{!Arith E W}.

(** [load_model], lines 39-51. *)
Definition load_model (fs : gmap string (file E))
    (models_dir model_name : string) : result (gmap string (tensor E)) :=
  let model_path := joinpath models_dir model_name in
  if decide (is_Some (fs !! model_path)) then load_file fs model_path
  else Raise (FileNotFoundError model_path).

(** Lines 74-76: the weights are only checked for a warning. *)
Definition weights_warning (models : list (string * (string * W)))
  : list (event W) :=
  let total_weight := py_sum (snd ∘ snd <$> models) in
  if py_gtb (py_abs (py_sub total_weight py_one)) py_tol
  then [WeightsWarning total_weight] else [].

(** Lines 79-85: the models are loaded in the order of [models]. *)
Fixpoint load_models (fs : gmap string (file E)) (models_dir : string)
    (models : list (string * (string * W)))
    (loaded_models : list (string * model_data E W))
  : result (list (string * model_data E W)) :=
  match models with
  | [] => Ok loaded_models
  | (model_key, (model_file, w)) :: models' =>
      sd ← load_model fs models_dir model_file;
      load_models fs models_dir models'
        (dict_set model_key (ModelData sd w) loaded_models)
  end.

(** Lines 88-90. *)
Definition all_keys (loaded_models : list (string * model_data E W))
  : gset string :=
  foldl (λ keys md, keys ∪ dom (state_dict md.2)) ∅ loaded_models.

(** Lines 104-110: the pair is [(tensors_to_merge, weights_to_use)]. *)
Definition collect (loaded_models : list (string * model_data E W))
    (key : string) : list (tensor E) * list W :=
  foldl (λ (lists : list (tensor E) * list W) md,
           match state_dict md.2 !! key with
           | Some t => (lists.1 ++ [t], lists.2 ++ [weight md.2])
           | None => lists
           end)
        ([], []) loaded_models.

(** Lines 133-138: [None] is Python's [None]. *)
Definition weighted_sum (tensors_to_merge : list (tensor E))
    (weights_to_use : list W) : option (tensor E) :=
  foldl (λ (merged_tensor : option (tensor E)) (tw : tensor E * W),
           match merged_tensor with
           | None => Some (mul_scalar (float_ tw.1) tw.2)
           | Some acc => Some (add_tensor acc (mul_scalar (float_ tw.1) tw.2))
           end)
        None (zip tensors_to_merge weights_to_use).

(** Lines 104-146, the body of [try].  [tensors_to_merge[0]] raises on
    an empty list; a [None] accumulator cannot be divided. *)
Definition merge_key (loaded_models : list (string * model_data E W))
    (key : string) : key_outcome E :=
  let tensors_to_merge := (collect loaded_models key).1 in
  let weights_to_use := (collect loaded_models key).2 in
  match tensors_to_merge with
  | [] => Failed IndexError
  | first :: rest =>
      let first_shape := t_shape first in
      let shape_mismatch :=
        bool_decide (Exists (λ t, t_shape t ≠ first_shape) rest) in
      if shape_mismatch then ShapeMismatch
      else
        let total_weight_used := py_sum weights_to_use in
        match weighted_sum tensors_to_merge weights_to_use with
        | None => Failed TypeError
        | Some merged_tensor =>
            Merged (if py_gtb total_weight_used py_zero
                    then div_scalar merged_tensor total_weight_used
                    else merged_tensor)
        end
  end.

(** Lines 99-150: one turn of the loop, [i] counting from 1 and [n]
    being [len(all_keys)]. *)
Definition merge_step (loaded_models : list (string * model_data E W))
    (n i : nat) (key : string) (st : merge_state E W) : merge_state E W :=
  let out :=
    if decide (i `mod` 100 = 0)
    then output st ++
         [Progress i n (merged_count st) (length (skipped_keys st))]
    else output st in
  match merge_key loaded_models key with
  | ShapeMismatch =>
      MergeState (merged_state_dict st) (skipped_keys st ++ [key])
                 (merged_count st) (out ++ [SkipShapeMismatch key])
  | Merged merged_tensor =>
      MergeState (<[key := merged_tensor]> (merged_state_dict st))
                 (skipped_keys st) (S (merged_count st)) out
  | Failed e =>
      MergeState (merged_state_dict st) (skipped_keys st ++ [key])
                 (merged_count st) (out ++ [SkipError key e])
  end.

Fixpoint merge_loop (loaded_models : list (string * model_data E W))
    (n i : nat) (keys : list string) (st : merge_state E W)
  : merge_state E W :=
  match keys with
  | [] => st
  | key :: keys' =>
      merge_loop loaded_models n (S i) keys'
                 (merge_step loaded_models n i key st)
  end.

(** Lines 87-151 for the loaded models.  [native] is the order in
    which Python happens to iterate a set in this run; [out0] is what
    was printed before. *)
Definition merge_loaded_from (native : gset string → list string)
    (loaded_models : list (string * model_data E W)) (out0 : list (event W))
  : merge_state E W :=
  let all_keys := all_keys loaded_models in
  merge_loop loaded_models (size all_keys) 1 (sorted (native all_keys))
             (MergeState ∅ [] 0 out0).

(** [merge_models], lines 72-172: the final state of the loop, or the
    exception, and the storage afterwards.  What was printed before an
    exception is not kept; directories are not modelled and saving to
    the map cannot fail. *)
Definition merge_models_from (native : gset string → list string)
    (fs : gmap string (file E)) (models_dir : string)
    (models : list (string * (string * W))) (output_path : string)
  : result (merge_state E W) * gmap string (file E) :=
  match load_models fs models_dir models [] with
  | Raise e => (Raise e, fs)
  | Ok loaded_models =>
      let st :=
        merge_loaded_from native loaded_models (weights_warning models) in
      (Ok st,
       save_file (merged_state_dict st) (joinpath models_dir output_path) fs)
  end.

(** The run in which sets are iterated in the order of [elements]. *)
Definition merge_loaded := merge_loaded_from elements.
Definition merge_models := merge_models_from elements.
End Merger.

(** ** app.py: [SDXLMergerInterface.merge_models] *)

(** The first component of what the method returns: one constructor per
    message. *)
Inductive app_status (W : Type) :=
  | BothWeightsZero
  | NeedTwoModels (found : list string)
  | MergeDone (model1_path model2_path : string) (w1 w2 : W) (n_keys : nat)
  | AppError (e : exn).
Arguments BothWeightsZero {W}.
Arguments NeedTwoModels {W}.
Arguments MergeDone {W}.
Arguments AppError {W}.

Section App.
Context `{!Arith E W}.

(** Lines 71-84, the body of the key loop.  [model2[key]] raises when
    the key is in neither mapping. *)
Definition app_merge_key (model1 model2 : gmap string (tensor E))
    (w1 w2 : W) (key : string) (merged : gmap string (tensor E))
  : result (gmap string (tensor E)) :=
  match model1 !! key, model2 !! key with
  | Some t1, Some t2 =>
      if decide (t_shape t1 = t_shape t2)
      then Ok (<[key := add_tensor (mul_scalar (float_ t1) w1)
                                   (mul_scalar (float_ t2) w2)]> merged)
      else Ok (<[key := t1]> merged)
  | Some t1, None => Ok (<[key := t1]> merged)
  | None, Some t2 => Ok (<[key := t2]> merged)
  | None, None => Raise (KeyError key)
  end.

Fixpoint app_merge_loop (model1 model2 : gmap string (tensor E))
    (w1 w2 : W) (keys : list string) (merged : gmap string (tensor E))
  : result (gmap string (tensor E)) :=
  match keys with
  | [] => Ok merged
  | key :: keys' =>
      merged' ← app_merge_key model1 model2 w1 w2 key merged;
      app_merge_loop model1 model2 w1 w2 keys' merged'
  end.

(** Lines 67-87.  [native] is the order in which Python happens to
    iterate a set in this run. *)
Definition app_merge_dicts_from (native : gset string → list string)
    (model1 model2 : gmap string (tensor E)) (w1 w2 : W)
  : result (gmap string (tensor E)) :=
  let all_keys := dom model1 ∪ dom model2 in
  app_merge_loop model1 model2 w1 w2 (sorted (native all_keys)) ∅.

(** [merge_models], lines 33-110.  [safetensors_files] is what
    [models_dir.glob("*.safetensors")] lists, in the order of the file
    system; the calls of [progress] are not modelled.  Every exception
    is turned into a message. *)
Definition app_merge_models_from (native : gset string → list string)
    (fs : gmap string (file E))
    (models_dir : string) (safetensors_files : list string)
    (model1_weight model2_weight : W)
  : (app_status W * option string) * gmap string (file E) :=
  let total := py_add model1_weight model2_weight in
  if py_eqb total py_zero then ((BothWeightsZero, None), fs)
  else
    let w1 := py_div model1_weight total in
    let w2 := py_div model2_weight total in
    match safetensors_files with
    | model1_path :: model2_path :: _ =>
        let merged :=
          model1 ← load_file fs model1_path;
          model2 ← load_file fs model2_path;
          app_merge_dicts_from native model1 model2 w1 w2 in
        match merged with
        | Raise e => ((AppError e, None), fs)
        | Ok merged =>
            let output_path := joinpath models_dir "merged_model.safetensors" in
            ((MergeDone model1_path model2_path w1 w2 (size merged),
              Some output_path),
             save_file merged output_path fs)
        end
    | _ => ((NeedTwoModels safetensors_files, None), fs)
    end.

(** The run in which sets are iterated in the order of [elements]. *)
Definition app_merge_dicts := app_merge_dicts_from elements.
Definition app_merge_models := app_merge_models_from elements.
End App.

(** ** Exact arithmetic

    The operations over the rationals, every element type holding every
    rational: the arithmetic the specification's formulas are written
    in, and a way to run the model. *)
Global Instance exact_arith : Arith Qc Qc := {|
  py_zero := 0%Qc;
  py_one := 1%Qc;
  py_tol := Q2Qc (1 # 100);
  py_add := Qcplus;
  py_sub := Qcminus;
  py_div := Qcdiv;
  py_abs := λ x, if bool_decide (x < 0)%Qc then Qcopp x else x;
  py_gtb := λ a b, bool_decide (b < a)%Qc;
  py_eqb := λ a b, bool_decide (a = b);
  convert := λ _ _ x, x;
  e_mul := λ _, Qcmult;
  e_add := λ _, Qcplus;
  e_div := λ _, Qcdiv
|}.

(** Decimal literals of the scenarios. *)
Definition dec (num : Z) (den : positive) : Qc := Q2Qc (num # den).

(** ** The specification's formulas and the outcome per key *)

Definition is_merged {E} (o : key_outcome E) : bool :=
  match o with
  | Merged _ => true
  | _ => false
  end.

Section Spec.
Context `{!Arith E W}.

(** The inputs that hold [key], each with its tensor and its weight, in
    the order of the inputs. *)
Definition contributions (loaded_models : list (string * model_data E W))
    (key : string) : list (tensor E * W) :=
  omap (λ md, (λ t, (t, weight md.2)) <$> state_dict md.2 !! key)
       loaded_models.

(** The union of the key sets of the inputs. *)
Definition union_keys (loaded_models : list (string * model_data E W))
  : gset string :=
  ⋃ ((λ md, dom (state_dict md.2)) <$> loaded_models).

(** A float32 sum, from left to right. *)
Definition sum_elements (xs : list E) : option E :=
  match xs with
  | [] => None
  | x :: xs' => Some (foldl (e_add F32) x xs')
  end.

(** [sum(weight_i * tensor_i) / sum(weight_i)] at the element of index
    [j], every tensor being converted to float32 first. *)
Definition weighted_mean_at (cs : list (tensor E * W)) (j : nat) : option E :=
  products ←
    mapM (λ tw, (λ x, e_mul F32 x tw.2) <$> t_data (float_ tw.1) !! j) cs;
  total ← sum_elements products;
  Some (e_div F32 total (py_sum cs.*2)).

(** The accumulator of the weighted sum after its first product. *)
Definition accumulate (acc : tensor E) (rest : list (tensor E * W))
  : tensor E :=
  foldl (λ acc tw, add_tensor acc (mul_scalar (float_ tw.1) tw.2)) acc rest.

(** What merge.py stores under [key], if anything. *)
Definition merged_value (loaded_models : list (string * model_data E W))
    (key : string) : option (tensor E) :=
  match merge_key loaded_models key with
  | Merged t => Some t
  | _ => None
  end.

(** What app.py stores under [key], if anything. *)
Definition app_value (model1 model2 : gmap string (tensor E))
    (w1 w2 : W) (key : string) : option (tensor E) :=
  match model1 !! key, model2 !! key with
  | Some t1, Some t2 =>
      Some (if decide (t_shape t1 = t_shape t2)
            then add_tensor (mul_scalar (float_ t1) w1)
                            (mul_scalar (float_ t2) w2)
            else t1)
  | Some t1, None => Some t1
  | None, Some t2 => Some t2
  | None, None => None
  end.

(** Two facts of floating-point arithmetic that some theorems need.
    A sum of positive numbers is positive, also when it starts from 0. *)
Definition sum_of_positive_is_positive : Prop :=
  ∀ a b : W, a = py_zero ∨ py_gtb a py_zero = true →
             py_gtb b py_zero = true →
             py_gtb (py_add a b) py_zero = true.

(** Multiplying by 1.0 and dividing by 1.0 change nothing. *)
Definition one_is_neutral : Prop :=
  py_add py_zero py_one = py_one ∧
  py_gtb py_one py_zero = true ∧
  (∀ x : E, e_mul F32 x py_one = x) ∧
  (∀ x : E, e_div F32 x py_one = x).
End Spec.

(** ** Scenarios

    Checkpoints over the rationals: the specification's example of two
    2x2 tensors, a tensor of another shape under the same key, a
    half-precision tensor under a key of its own, and a file that is
    not a checkpoint. *)
Definition ones : tensor Qc :=
  Tensor F32 [2; 2] [dec 1 1; dec 1 1; dec 1 1; dec 1 1].
Definition threes : tensor Qc :=
  Tensor F32 [2; 2] [dec 3 1; dec 3 1; dec 3 1; dec 3 1].
Definition nine : tensor Qc := Tensor F32 [3; 3] (replicate 9 (dec 1 1)).
Definition half : tensor Qc := Tensor F16 [1] [dec 1 1].

Definition model_a : gmap string (tensor Qc) := {[ "w1" := ones ]}.
Definition model_b : gmap string (tensor Qc) := {[ "w1" := threes ]}.
Definition model_bad : gmap string (tensor Qc) := {[ "w1" := nine ]}.
Definition model_half : gmap string (tensor Qc) := {[ "only_a" := half ]}.

Definition disk : gmap string (file Qc) :=
  {[ "models/a.safetensors" := Safetensors model_a;
     "models/b.safetensors" := Safetensors model_b;
     "models/bad.safetensors" := Safetensors model_bad;
     "models/half.safetensors" := Safetensors model_half;
     "models/corrupt.safetensors" := Unreadable ]}.

(** A merge that lists a file that does not load before one that does
    not exist. *)
Definition models_missing : list (string * (string * Qc)) :=
  [("a", ("a.safetensors", dec 1 3));
   ("c", ("corrupt.safetensors", dec 1 3));
   ("m", ("missing.safetensors", dec 1 3))].

(** ** The rest of merge.py and app.py *)

(** What [get_model_info] prints: the name, the number of keys, up to
    five keys and the number of parameters (printed in billions), or
    the message of the exception. *)
Inductive model_info :=
  | ModelInfo (model_name : string) (n_keys : nat)
              (example_keys : list string) (total_params : nat)
  | InfoError (e : exn).

Section MoreCode.
Context `{!Arith E W}.

(** The weighted sum at the element of index [j], before the division
    of line 143: [sum(weight_i * tensor_i)]. *)
Definition weighted_sum_at (cs : list (tensor E * W)) (j : nat) : option E :=
  products ←
    mapM (λ tw, (λ x, e_mul F32 x tw.2) <$> t_data (float_ tw.1) !! j) cs;
  sum_elements products.

(** [get_model_info], lines 174-185.  [keys_order] is the order of
    [state_dict.keys()]; [p.numel()] is the product of the shape. *)
Definition get_model_info (keys_order : gmap string (tensor E) → list string)
    (fs : gmap string (file E)) (models_dir model_name : string)
  : model_info :=
  match load_model fs models_dir model_name with
  | Ok state_dict =>
      let total_params :=
        sum_list_with (λ kp, numel (t_shape kp.2)) (map_to_list state_dict) in
      ModelInfo model_name (size state_dict) (take 5 (keys_order state_dict))
                total_params
  | Raise e => InfoError e
  end.

(** The configuration of [main], lines 196-203; [w_060] and [w_040]
    are the literals 0.60 and 0.40. *)
Definition MODELS_DIR : string := "models".
Definition OUTPUT_FILE : string := "merged_sdxl.safetensors".
Definition MODELS_TO_MERGE (w_060 w_040 : W) : list (string * (string * W)) :=
  [("jake", ("JakeSubwaySurfer1-10 (4).safetensors", w_060));
   ("realvis", ("realvisxlV50_v50LightningBakedvae.safetensors", w_040))].

(** [main], lines 188-233: the exit status of the script (1 from
    [sys.exit(1)] when anything was raised) and the storage afterwards. *)
Definition main (w_060 w_040 : W) (fs : gmap string (file E))
  : nat * gmap string (file E) :=
  match merge_models fs MODELS_DIR (MODELS_TO_MERGE w_060 w_040) OUTPUT_FILE with
  | (Ok _, fs') => (0, fs')
  | (Raise _, fs') => (1, fs')
  end.

(** [on_merge] of app.py, lines 165-173: the dict [updates] is built and
    dropped; an empty path counts as no path. *)
Definition on_merge (fs : gmap string (file E)) (models_dir : string)
    (safetensors_files : list string) (w1 w2 : W)
  : (app_status W * option string) * gmap string (file E) :=
  let '((text, file_path), fs') :=
    app_merge_models fs models_dir safetensors_files w1 w2 in
  ((text,
    match file_path with
    | Some p => if decide (p = "") then None else Some p
    | None => None
    end),
   fs').

(** An entry of [models] and the entry of [loaded_models] it gives. *)
Definition loaded_from (fs : gmap string (file E)) (dir : string)
    (m : string * (string * W)) (md : string * model_data E W) : Prop :=
  md.1 = m.1 ∧ weight md.2 = m.2.2 ∧
  fs !! joinpath dir m.2.1 = Some (Safetensors (state_dict md.2)).
End MoreCode.

(** ** More scenarios *)

(** A merge of three checkpoints, one of which lacks the key "w1". *)
Definition models_mix : list (string * (string * Qc)) :=
  [("a", ("a.safetensors", dec 6 10));
   ("half", ("half.safetensors", dec 1 1));
   ("b", ("b.safetensors", dec 4 10))].
Definition loaded_mix : list (string * model_data Qc Qc) :=
  [("a", ModelData model_a (dec 6 10));
   ("half", ModelData model_half (dec 1 1));
   ("b", ModelData model_b (dec 4 10))].
Definition state_mix : merge_state Qc Qc :=
  merge_loaded loaded_mix (weights_warning models_mix).
Definition disk_mix : gmap string (file Qc) :=
  save_file (merged_state_dict state_mix) (joinpath "models" "out.safetensors")
            disk.

(** Two checkpoints that disagree on the shapes of "k1" and "k2", merged
    in a run that iterates sets in the reverse of [elements]. *)
Definition model_c : gmap string (tensor Qc) :=
  {[ "k0" := ones; "k1" := ones; "k2" := ones ]}.
Definition model_d : gmap string (tensor Qc) :=
  {[ "k0" := threes; "k1" := nine; "k2" := nine ]}.
Definition disk_clash : gmap string (file Qc) :=
  {[ "models/c.safetensors" := Safetensors model_c;
     "models/d.safetensors" := Safetensors model_d ]}.
Definition models_clash : list (string * (string * Qc)) :=
  [("c", ("c.safetensors", dec 1 2)); ("d", ("d.safetensors", dec 1 2))].
Definition state_clash : merge_state Qc Qc :=
  merge_loaded_from (reverse ∘ elements)
    [("c", ModelData model_c (dec 1 2)); ("d", ModelData model_d (dec 1 2))]
    (weights_warning models_clash).

(** A checkpoint of 100 keys, "aa" to "jj". *)
Definition key_100 (n : nat) : string :=
  String (Ascii.ascii_of_nat (97 + n `div` 10))
         (String (Ascii.ascii_of_nat (97 + n `mod` 10)) "").
Definition model_100 : gmap string (tensor Qc) :=
  list_to_map ((λ n, (key_100 n, half)) <$> seq 0 100).
Definition disk_100 : gmap string (file Qc) :=
  {[ "models/big.safetensors" := Safetensors model_100 ]}.
Definition models_100 : list (string * (string * Qc)) :=
  [("big", ("big.safetensors", dec 1 1))].
Definition state_100 : merge_state Qc Qc :=
  merge_loaded [("big", ModelData model_100 (dec 1 1))]
               (weights_warning models_100).

(** * Properties *)

(** ** The order of the keys *)

Lemma sorted_Permutation (l : list string) : sorted l ≡ₚ l.
Proof. apply merge_sort_Permutation. Qed.

Lemma sorted_StronglySorted (l : list string) :
  StronglySorted String.le (sorted l).
Proof. apply StronglySorted_merge_sort; apply _. Qed.

Lemma sorted_native (l1 l2 : list string) :
  l1 ≡ₚ l2 → sorted l1 = sorted l2.
Proof.
  intros Hp. apply (StronglySorted_unique String.le).
  - apply sorted_StronglySorted.
  - apply sorted_StronglySorted.
  - by rewrite !sorted_Permutation.
Qed.

Lemma elem_of_sorted (l : list string) k : k ∈ sorted l ↔ k ∈ l.
Proof. by rewrite sorted_Permutation. Qed.

Lemma NoDup_sorted (l : list string) : NoDup l → NoDup (sorted l).
Proof. by rewrite sorted_Permutation. Qed.

Lemma length_sorted (l : list string) : length (sorted l) = length l.
Proof. by rewrite sorted_Permutation. Qed.

Lemma length_filter_split {A} (f : A → bool) (l : list A) :
  length (filter (λ x, f x = true) l) + length (filter (λ x, f x = false) l)
  = length l.
Proof.
  induction l as [|x l IH]; [done|]. rewrite !filter_cons.
  destruct (f x); simpl; lia.
Qed.

(** ** The two merges *)

Section Facts.
Context `{!Arith E W}.
Implicit Types (loaded : list (string * model_data E W)) (key : string).
Implicit Types (st : merge_state E W) (keys : list string).
Implicit Types (fs : gmap string (file E)).
Implicit Types (models : list (string * (string * W))).
Implicit Types (merged : gmap string (tensor E)).

(** *** The keys and the contributions to a key *)

Lemma all_keys_union loaded : all_keys loaded = union_keys loaded.
Proof.
  unfold all_keys, union_keys.
  assert (∀ s0, foldl (λ ks md, ks ∪ dom (state_dict md.2)) s0 loaded
                = s0 ∪ ⋃ ((λ md, dom (state_dict md.2)) <$> loaded)) as Hgen.
  { induction loaded as [|md l IH]; intros s0; simpl.
    - by rewrite (right_id_L ∅ (∪)).
    - by rewrite IH, (assoc_L (∪)). }
  by rewrite Hgen, (left_id_L ∅ (∪)).
Qed.

Lemma elem_of_union_keys loaded key :
  key ∈ union_keys loaded ↔
  ∃ md, md ∈ loaded ∧ is_Some (state_dict md.2 !! key).
Proof.
  unfold union_keys. rewrite elem_of_union_list. split.
  - intros (X & HX & Hk). apply list_elem_of_fmap in HX as (md & -> & Hmd).
    exists md. split; [done|]. by apply elem_of_dom.
  - intros (md & Hmd & Hk). exists (dom (state_dict md.2)). split.
    + apply list_elem_of_fmap. eauto.
    + by apply elem_of_dom.
Qed.

Lemma collect_contributions loaded key :
  collect loaded key
  = ((contributions loaded key).*1, (contributions loaded key).*2).
Proof.
  unfold collect, contributions.
  set (f := λ (lists : list (tensor E) * list W) (md : string * model_data E W),
           match state_dict md.2 !! key with
           | Some t => (lists.1 ++ [t], lists.2 ++ [weight md.2])
           | None => lists
           end).
  set (g := λ md : string * model_data E W,
           (λ t, (t, weight md.2)) <$> state_dict md.2 !! key).
  assert (∀ acc, foldl f acc loaded
                 = (acc.1 ++ (omap g loaded).*1, acc.2 ++ (omap g loaded).*2))
    as Hgen.
  { induction loaded as [|md l IH]; intros [ts ws]; simpl.
    - by rewrite !app_nil_r.
    - rewrite IH. unfold f, g. destruct (state_dict md.2 !! key); simpl.
      + by rewrite <-!app_assoc.
      + done. }
  by rewrite Hgen.
Qed.

Lemma elem_of_contributions loaded key t w :
  (t, w) ∈ contributions loaded key ↔
  ∃ md, md ∈ loaded ∧ state_dict md.2 !! key = Some t ∧ weight md.2 = w.
Proof.
  unfold contributions. rewrite list_elem_of_omap. split.
  - intros (md & Hmd & Heq). exists md.
    destruct (state_dict md.2 !! key); simplify_eq/=. done.
  - intros (md & Hmd & Ht & Hw). exists md. rewrite Ht. simpl. by subst.
Qed.

(** *** The weighted sum *)

Lemma float_dtype (t : tensor E) : t_dtype (float_ t) = F32.
Proof. unfold float_. by case_decide. Qed.

Lemma float_shape (t : tensor E) : t_shape (float_ t) = t_shape t.
Proof. unfold float_. by case_decide. Qed.

Lemma float_length (t : tensor E) :
  length (t_data (float_ t)) = length (t_data t).
Proof. unfold float_. case_decide; [done|]. simpl. by rewrite length_fmap. Qed.

Lemma float_F32 (t : tensor E) : t_dtype t = F32 → float_ t = t.
Proof. intros Hd. unfold float_. by rewrite decide_True. Qed.

Lemma weighted_sum_cons t0 w0 ts ws :
  weighted_sum (t0 :: ts) (w0 :: ws)
  = Some (accumulate (mul_scalar (float_ t0) w0) (zip ts ws)).
Proof.
  unfold weighted_sum, accumulate. simpl.
  generalize (mul_scalar (float_ t0) w0). generalize (zip ts ws).
  induction l as [|tw l IH]; intros acc; simpl; [done|]. apply IH.
Qed.

Lemma accumulate_dtype acc rest : t_dtype (accumulate acc rest) = t_dtype acc.
Proof.
  revert acc. induction rest as [|tw l IH]; intros acc; simpl; [done|].
  unfold accumulate in *. simpl. by rewrite IH.
Qed.

Lemma accumulate_shape acc rest : t_shape (accumulate acc rest) = t_shape acc.
Proof.
  revert acc. induction rest as [|tw l IH]; intros acc; simpl; [done|].
  unfold accumulate in *. simpl. by rewrite IH.
Qed.

Lemma merge_key_contributions loaded key :
  merge_key loaded key =
  match contributions loaded key with
  | [] => Failed IndexError
  | (first, w0) :: rest =>
      if bool_decide (Exists (λ tw : tensor E * W,
                                t_shape tw.1 ≠ t_shape first) rest)
      then ShapeMismatch
      else
        let merged_tensor := accumulate (mul_scalar (float_ first) w0) rest in
        let total_weight_used := py_sum (w0 :: rest.*2) in
        Merged (if py_gtb total_weight_used py_zero
                then div_scalar merged_tensor total_weight_used
                else merged_tensor)
  end.
Proof.
  unfold merge_key. rewrite collect_contributions. simpl.
  destruct (contributions loaded key) as [|[first w0] rest]; simpl; [done|].
  rewrite weighted_sum_cons, zip_fst_snd.
  assert (Exists (λ t : tensor E, t_shape t ≠ t_shape first) rest.*1
          ↔ Exists (λ tw : tensor E * W, t_shape tw.1 ≠ t_shape first) rest)
    as Hiff.
  { rewrite !Exists_exists. split.
    - intros (t & Ht & Hne).
      apply list_elem_of_fmap in Ht as (tw & -> & Htw). eauto.
    - intros (tw & Htw & Hne). exists tw.1. split; [|done].
      apply list_elem_of_fmap. eauto. }
  rewrite (bool_decide_ext _ _ Hiff). done.
Qed.

(** *** The key loop of merge.py *)

Lemma merge_step_lookup loaded n i key st k :
  merged_state_dict (merge_step loaded n i key st) !! k =
  match merge_key loaded key with
  | Merged t => if decide (key = k) then Some t else merged_state_dict st !! k
  | _ => merged_state_dict st !! k
  end.
Proof.
  unfold merge_step. destruct (merge_key loaded key); simpl; [|done..].
  apply lookup_insert.
Qed.

Lemma merge_loop_lookup loaded n i keys st k :
  merged_state_dict (merge_loop loaded n i keys st) !! k =
  if decide (k ∈ keys) then
    match merge_key loaded k with
    | Merged t => Some t
    | _ => merged_state_dict st !! k
    end
  else merged_state_dict st !! k.
Proof.
  revert i st. induction keys as [|key l IH]; intros i st.
  - simpl. destruct (decide (k ∈ [])) as [Hin|_]; [|done].
    by apply elem_of_nil in Hin.
  - cbn [merge_loop]. rewrite IH, merge_step_lookup.
    destruct (decide (k ∈ key :: l)) as [Hin|Hnin].
    + destruct (decide (key = k)) as [->|Hne].
      * destruct (merge_key loaded k); by case_decide.
      * apply elem_of_cons in Hin as [->|Hin]; [done|].
        rewrite decide_True by done.
        destruct (merge_key loaded k); [done|..];
          by destruct (merge_key loaded key).
    + apply not_elem_of_cons in Hnin as [Hne Hnin].
      rewrite decide_False by done.
      destruct (merge_key loaded key); [|done..]. by rewrite decide_False.
Qed.

Lemma merge_loop_skipped loaded n i keys st :
  skipped_keys (merge_loop loaded n i keys st)
  = skipped_keys st
    ++ filter (λ k, is_merged (merge_key loaded k) = false) keys.
Proof.
  revert i st. induction keys as [|key l IH]; intros i st; simpl.
  - by rewrite app_nil_r.
  - rewrite IH. unfold merge_step. rewrite filter_cons.
    destruct (merge_key loaded key); simpl; by rewrite <-?app_assoc.
Qed.

Lemma merge_loop_count loaded n i keys st :
  merged_count (merge_loop loaded n i keys st)
  = merged_count st
    + length (filter (λ k, is_merged (merge_key loaded k) = true) keys).
Proof.
  revert i st. induction keys as [|key l IH]; intros i st; simpl.
  - by rewrite Nat.add_0_r.
  - rewrite IH. unfold merge_step. rewrite filter_cons.
    destruct (merge_key loaded key); simpl; lia.
Qed.

Lemma merge_step_output loaded n i key st :
  ∃ more, output (merge_step loaded n i key st) = output st ++ more ∧
    (merge_key loaded key = ShapeMismatch → SkipShapeMismatch key ∈ more).
Proof.
  unfold merge_step. destruct (merge_key loaded key); simpl; case_decide.
  - eexists. split; [done|]. done.
  - exists []. by rewrite app_nil_r.
  - eexists. rewrite <-app_assoc. split; [done|]. intros _. set_solver.
  - eexists. split; [done|]. intros _. set_solver.
  - eexists. rewrite <-app_assoc. split; [done|]. done.
  - eexists. split; [done|]. done.
Qed.

Lemma merge_loop_output loaded n i keys st :
  ∃ more, output (merge_loop loaded n i keys st) = output st ++ more ∧
    ∀ k, k ∈ keys → merge_key loaded k = ShapeMismatch →
         SkipShapeMismatch k ∈ more.
Proof.
  revert i st. induction keys as [|key l IH]; intros i st; simpl.
  - exists []. rewrite app_nil_r. split; [done|].
    intros k Hk. by apply elem_of_nil in Hk.
  - destruct (IH (S i) (merge_step loaded n i key st)) as (more2 & -> & Hmore2).
    destruct (merge_step_output loaded n i key st) as (more1 & -> & Hmore1).
    exists (more1 ++ more2). rewrite <-app_assoc. split; [done|].
    intros k [->|Hk]%elem_of_cons Hmis; apply elem_of_app; eauto.
Qed.

Lemma contributions_nil loaded key :
  contributions loaded key = [] ↔ key ∉ all_keys loaded.
Proof.
  rewrite all_keys_union, elem_of_union_keys. split.
  - intros Hnil (md & Hmd & [t Ht]).
    assert ((t, weight md.2) ∈ contributions loaded key) as Hin.
    { apply elem_of_contributions. eauto. }
    rewrite Hnil in Hin. by apply elem_of_nil in Hin.
  - intros Hno.
    destruct (contributions loaded key) as [|[t w] rest] eqn:Hc; [done|].
    assert ((t, w) ∈ contributions loaded key) as Hin by (rewrite Hc; left).
    apply elem_of_contributions in Hin as (md & Hmd & Ht & _).
    destruct Hno. eauto.
Qed.

Lemma merge_key_not_failed loaded key e :
  key ∈ all_keys loaded → merge_key loaded key ≠ Failed e.
Proof.
  intros Hin. rewrite merge_key_contributions.
  destruct (contributions loaded key) as [|[t w] rest] eqn:Hc.
  - apply contributions_nil in Hc. done.
  - simpl. by case_bool_decide.
Qed.

Lemma merged_value_all_keys loaded key :
  is_Some (merged_value loaded key) → key ∈ all_keys loaded.
Proof.
  unfold merged_value. rewrite merge_key_contributions. intros Hs.
  destruct (decide (key ∈ all_keys loaded)) as [|Hn]; [done|].
  apply contributions_nil in Hn. rewrite Hn in Hs. by destruct Hs.
Qed.

(** *** Runs: any order of iteration gives the keys of [elements] *)

Section Run.
Context (native : gset string → list string).
Context (native_perm : ∀ s, native s ≡ₚ elements s).

Lemma elem_of_sorted_native (s : gset string) k :
  k ∈ sorted (native s) ↔ k ∈ s.
Proof. by rewrite elem_of_sorted, native_perm, elem_of_elements. Qed.

Lemma NoDup_sorted_native (s : gset string) : NoDup (sorted (native s)).
Proof. apply NoDup_sorted. rewrite native_perm. apply NoDup_elements. Qed.

Lemma length_sorted_native (s : gset string) :
  length (sorted (native s)) = size s.
Proof. by rewrite length_sorted, native_perm. Qed.

Lemma sorted_native_elements (s : gset string) :
  sorted (native s) = sorted (elements s).
Proof. apply sorted_native, native_perm. Qed.

Lemma merge_loaded_from_native loaded out0 :
  merge_loaded_from native loaded out0 = merge_loaded loaded out0.
Proof.
  unfold merge_loaded, merge_loaded_from. by rewrite sorted_native_elements.
Qed.

End Run.

(** *** The result of merge.py on loaded models *)

Lemma merge_loaded_lookup loaded out0 key :
  merged_state_dict (merge_loaded loaded out0) !! key = merged_value loaded key.
Proof.
  unfold merge_loaded, merge_loaded_from. rewrite merge_loop_lookup. simpl.
  rewrite lookup_empty. unfold merged_value.
  case_decide as Hin; [by destruct (merge_key loaded key)|].
  rewrite (elem_of_sorted_native elements) in Hin by done.
  apply contributions_nil in Hin. by rewrite merge_key_contributions, Hin.
Qed.

Lemma merge_loaded_skipped loaded out0 :
  skipped_keys (merge_loaded loaded out0)
  = filter (λ k, is_merged (merge_key loaded k) = false)
           (sorted (elements (all_keys loaded))).
Proof.
  unfold merge_loaded, merge_loaded_from. by rewrite merge_loop_skipped.
Qed.

Lemma merge_loaded_count loaded out0 :
  merged_count (merge_loaded loaded out0)
  = length (filter (λ k, is_merged (merge_key loaded k) = true)
                   (sorted (elements (all_keys loaded)))).
Proof. unfold merge_loaded, merge_loaded_from. by rewrite merge_loop_count. Qed.

Lemma elem_of_skipped loaded out0 key :
  key ∈ skipped_keys (merge_loaded loaded out0)
  ↔ key ∈ all_keys loaded ∧ merged_value loaded key = None.
Proof.
  rewrite merge_loaded_skipped, list_elem_of_filter.
  rewrite (elem_of_sorted_native elements) by done.
  unfold merged_value.
  destruct (merge_key loaded key); simpl; split; intros [? ?]; by split.
Qed.

Lemma merge_loaded_total loaded out0 :
  merged_count (merge_loaded loaded out0)
  + length (skipped_keys (merge_loaded loaded out0))
  = size (all_keys loaded).
Proof.
  rewrite merge_loaded_count, merge_loaded_skipped.
  rewrite (length_filter_split (λ k, is_merged (merge_key loaded k))).
  by apply length_sorted_native.
Qed.

Lemma merge_loaded_size loaded out0 :
  merged_count (merge_loaded loaded out0)
  = size (merged_state_dict (merge_loaded loaded out0)).
Proof.
  rewrite merge_loaded_count, <-size_dom.
  set (l := filter _ _).
  assert (NoDup l) as Hnd
    by (apply NoDup_filter, (NoDup_sorted_native elements); done).
  rewrite <-(size_list_to_set (C := gset string) l Hnd). f_equal.
  apply set_eq. intros k.
  rewrite elem_of_list_to_set, elem_of_dom, merge_loaded_lookup.
  unfold l. rewrite list_elem_of_filter.
  rewrite (elem_of_sorted_native elements) by done.
  split.
  - intros [Hm Hin]. unfold merged_value. by destruct (merge_key loaded k).
  - intros Hs. split; [|by apply merged_value_all_keys].
    unfold merged_value in Hs.
    destruct (merge_key loaded k); try done; by destruct Hs.
Qed.

Lemma merge_models_loaded fs dir models out loaded :
  load_models fs dir models [] = Ok loaded →
  merge_models fs dir models out
  = (Ok (merge_loaded loaded (weights_warning models)),
     save_file
       (merged_state_dict (merge_loaded loaded (weights_warning models)))
       (joinpath dir out) fs).
Proof. intros Hl. unfold merge_models, merge_models_from. by rewrite Hl. Qed.

Lemma merged_value_dtype loaded key t :
  merged_value loaded key = Some t → t_dtype t = F32.
Proof.
  unfold merged_value. rewrite merge_key_contributions.
  destruct (contributions loaded key) as [|[first w0] rest]; [done|].
  case_bool_decide; [done|]. simpl. intros [= <-].
  case_match; simpl; rewrite accumulate_dtype; simpl; apply float_dtype.
Qed.

Lemma merged_value_mismatch loaded key md1 md2 t1 t2 :
  md1 ∈ loaded → md2 ∈ loaded →
  state_dict md1.2 !! key = Some t1 → state_dict md2.2 !! key = Some t2 →
  t_shape t1 ≠ t_shape t2 →
  merge_key loaded key = ShapeMismatch.
Proof.
  intros Hmd1 Hmd2 Ht1 Ht2 Hne.
  assert ((t1, weight md1.2) ∈ contributions loaded key) as Hc1
    by (apply elem_of_contributions; eauto).
  assert ((t2, weight md2.2) ∈ contributions loaded key) as Hc2
    by (apply elem_of_contributions; eauto).
  rewrite merge_key_contributions.
  destruct (contributions loaded key) as [|[first w0] rest]; [by apply elem_of_nil in Hc1|].
  rewrite bool_decide_eq_true_2; [done|]. apply Exists_exists.
  destruct (decide (t_shape t1 = t_shape first)) as [Heq|Hne1].
  - exists (t2, weight md2.2). split; [|simpl; congruence].
    apply elem_of_cons in Hc2 as [[= -> _]|]; [congruence|done].
  - exists (t1, weight md1.2). split; [|done].
    apply elem_of_cons in Hc1 as [[= -> _]|]; [congruence|done].
Qed.

(** C5: when the merge completes, [merged_count] plus the number of
    skipped keys is the number of keys in the union of the inputs' key
    sets; [merged_count] is the size of the output mapping; and every
    key of the union is either in the output or in [skipped_keys], never
    in both and never in neither. *)
Theorem union_key_count_invariant fs dir models out loaded :
  load_models fs dir models [] = Ok loaded →
  ∃ st,
    merge_models fs dir models out
    = (Ok st, save_file (merged_state_dict st) (joinpath dir out) fs) ∧
    merged_count st + length (skipped_keys st) = size (union_keys loaded) ∧
    merged_count st = size (merged_state_dict st) ∧
    ∀ key, key ∈ union_keys loaded ↔
           (key ∈ dom (merged_state_dict st) ∧ key ∉ skipped_keys st) ∨
           (key ∈ skipped_keys st ∧ key ∉ dom (merged_state_dict st)).
Proof.
  intros Hload. eexists. split; [by apply merge_models_loaded|].
  set (st := merge_loaded loaded (weights_warning models)).
  rewrite <-all_keys_union. split; [apply merge_loaded_total|].
  split; [apply merge_loaded_size|].
  intros key. unfold st. rewrite elem_of_skipped, elem_of_dom, merge_loaded_lookup.
  split.
  - intros Hin. destruct (merged_value loaded key) as [t|] eqn:Hv.
    + left. split; [eauto|]. intros [_ ?]. done.
    + right. split; [done|]. by intros [? ?].
  - intros [[Hs _]|[[Hin _] _]]; [|done]. by apply merged_value_all_keys.
Qed.

(** C4: a key that two inputs hold with tensors of different shapes is
    left out of the output, is appended to [skipped_keys] and reported
    with the shape-mismatch message; the merge still succeeds, writes
    its output, and every key of the union is merged or skipped. *)
Theorem shape_mismatch_skips_key fs dir models out loaded key md1 md2 t1 t2 :
  load_models fs dir models [] = Ok loaded →
  md1 ∈ loaded → md2 ∈ loaded →
  state_dict md1.2 !! key = Some t1 →
  state_dict md2.2 !! key = Some t2 →
  t_shape t1 ≠ t_shape t2 →
  ∃ st,
    merge_models fs dir models out
    = (Ok st, save_file (merged_state_dict st) (joinpath dir out) fs) ∧
    merged_state_dict st !! key = None ∧
    key ∈ skipped_keys st ∧
    SkipShapeMismatch key ∈ output st ∧
    ∀ key', key' ∈ union_keys loaded →
            key' ∈ dom (merged_state_dict st) ∨ key' ∈ skipped_keys st.
Proof.
  intros Hload Hmd1 Hmd2 Ht1 Ht2 Hne.
  pose proof (merged_value_mismatch _ _ _ _ _ _ Hmd1 Hmd2 Ht1 Ht2 Hne) as Hmis.
  assert (key ∈ all_keys loaded) as Hin.
  { rewrite all_keys_union. apply elem_of_union_keys. eauto. }
  eexists. split; [by apply merge_models_loaded|].
  split; [|split; [|split]].
  - rewrite merge_loaded_lookup. unfold merged_value. by rewrite Hmis.
  - apply elem_of_skipped. split; [done|]. unfold merged_value. by rewrite Hmis.
  - unfold merge_loaded, merge_loaded_from.
    edestruct merge_loop_output as (more & -> & Hmore).
    apply elem_of_app. right. apply Hmore; [|done].
    by apply (elem_of_sorted_native elements).
  - intros key' Hin'. rewrite <-all_keys_union in Hin'.
    rewrite elem_of_skipped, elem_of_dom, merge_loaded_lookup.
    destruct (merged_value loaded key'); eauto.
Qed.

Lemma merge_models_inv fs dir models out st fs' :
  merge_models fs dir models out = (Ok st, fs') →
  ∃ loaded, load_models fs dir models [] = Ok loaded ∧
    st = merge_loaded loaded (weights_warning models) ∧
    fs' = save_file (merged_state_dict st) (joinpath dir out) fs.
Proof.
  unfold merge_models, merge_models_from.
  destruct (load_models fs dir models []) as [loaded|e]; [|done].
  intros [= <- <-]. eauto.
Qed.

(** C10: every tensor that merge.py stores in the merged mapping, and
    so in the file it writes, has dtype float32, whatever the dtypes of
    the inputs. *)
Theorem merged_tensors_are_float32 fs dir models out st fs' key t :
  merge_models fs dir models out = (Ok st, fs') →
  merged_state_dict st !! key = Some t →
  t_dtype t = F32 ∧
  fs' !! joinpath dir out = Some (Safetensors (merged_state_dict st)).
Proof.
  intros (loaded & Hload & -> & ->)%merge_models_inv Hk. split.
  - rewrite merge_loaded_lookup in Hk. by eapply merged_value_dtype.
  - unfold save_file. apply lookup_insert_eq.
Qed.

Lemma py_sum_positive (ws : list W) :
  sum_of_positive_is_positive →
  ws ≠ [] → Forall (λ w, py_gtb w py_zero = true) ws →
  py_gtb (py_sum ws) py_zero = true.
Proof.
  intros Hlaw Hne Hpos. unfold py_sum.
  assert (∀ ws' acc, Forall (λ w, py_gtb w py_zero = true) ws' →
                     py_gtb acc py_zero = true →
                     py_gtb (foldl py_add acc ws') py_zero = true) as Hgen.
  { intros ws' acc Hws'. revert acc.
    induction Hws' as [|w ws' Hw _ IH]; intros acc Hacc; simpl; [done|].
    apply IH, Hlaw; auto. }
  destruct Hpos as [|w ws Hw Hws]; [done|]. simpl.
  apply Hgen; [done|]. apply Hlaw; auto.
Qed.

Lemma contributions_Forall2 loaded key (inputs : list (tensor E * W)) :
  Forall2 (λ md tw, state_dict md.2 !! key = Some tw.1 ∧ weight md.2 = tw.2)
          loaded inputs →
  contributions loaded key = inputs.
Proof.
  unfold contributions. induction 1 as [|md [t w] l k [Ht Hw] _ IH]; [done|].
  simpl in *. rewrite Ht. simpl. f_equal; [by rewrite Hw|exact IH].
Qed.

Lemma accumulate_length acc (rest : list (tensor E * W)) n :
  length (t_data acc) = n →
  Forall (λ tw, length (t_data tw.1) = n) rest →
  length (t_data (accumulate acc rest)) = n.
Proof.
  intros Hacc Hrest. revert acc Hacc.
  induction Hrest as [|[t w] l Ht _ IH]; intros acc Hacc; [done|].
  unfold accumulate. simpl. apply IH. simpl.
  rewrite length_zip_with, length_fmap, float_length. simpl in Ht. lia.
Qed.

Lemma accumulate_lookup acc (rest : list (tensor E * W)) n j a :
  t_dtype acc = F32 →
  t_data acc !! j = Some a →
  Forall (λ tw, length (t_data tw.1) = n) rest →
  j < n →
  ∃ ps,
    mapM (λ tw : tensor E * W,
            (λ x, e_mul F32 x tw.2) <$> t_data (float_ tw.1) !! j) rest = Some ps ∧
    t_data (accumulate acc rest) !! j = Some (foldl (e_add F32) a ps).
Proof.
  intros Hd Ha Hrest Hj. revert acc a Hd Ha.
  induction Hrest as [|[t w] l Ht _ IH]; intros acc a Hd Ha.
  - exists []. done.
  - simpl in Ht.
    destruct (lookup_lt_is_Some_2 (t_data (float_ t)) j) as [x Hx].
    { rewrite float_length. lia. }
    destruct (IH (add_tensor acc (mul_scalar (float_ t) w)) (e_add F32 a (e_mul F32 x w)))
      as (ps & Hps & Hlook).
    { done. }
    { simpl. rewrite lookup_zip_with, Ha, list_lookup_fmap, Hx. simpl.
      by rewrite Hd, float_dtype. }
    exists (e_mul F32 x w :: ps). split.
    + simpl. rewrite Hx. simpl. by rewrite Hps.
    + done.
Qed.

(** C1: when every input has a positive weight and holds [key] with a
    tensor of shape [shape], the merge stores under [key] a float32
    tensor of that shape whose element [j] is the sum of the products
    [weight_i * tensor_i[j]] divided by the sum of the weights, both
    computed from left to right in the library's arithmetic. *)
Theorem weighted_average fs dir models out loaded key shape
    (inputs : list (tensor E * W)) :
  sum_of_positive_is_positive →
  load_models fs dir models [] = Ok loaded →
  loaded ≠ [] →
  Forall2 (λ md tw, state_dict md.2 !! key = Some tw.1 ∧ weight md.2 = tw.2)
          loaded inputs →
  Forall (λ tw, py_gtb tw.2 py_zero = true ∧
                t_shape tw.1 = shape ∧ well_formed tw.1) inputs →
  ∃ st t,
    merge_models fs dir models out
    = (Ok st, save_file (merged_state_dict st) (joinpath dir out) fs) ∧
    merged_state_dict st !! key = Some t ∧
    t_dtype t = F32 ∧ t_shape t = shape ∧ well_formed t ∧
    ∀ j, j < numel shape → t_data t !! j = weighted_mean_at inputs j.
Proof.
  intros Hlaw Hload Hne Hin Hall.
  pose proof (contributions_Forall2 _ _ _ Hin) as Hc.
  destruct inputs as [|[t0 w0] rest].
  { apply Forall2_nil_inv_r in Hin. done. }
  apply Forall_cons in Hall as [(Hw0 & Hs0 & Hwf0) Hrest]. simpl in *.
  assert (py_gtb (py_sum (w0 :: rest.*2)) py_zero = true) as Hsum.
  { apply py_sum_positive; [done..|]. constructor; [done|].
    apply Forall_fmap. eapply Forall_impl; [exact Hrest|]. by intros ? (? & _). }
  assert (Forall (λ tw : tensor E * W, length (t_data tw.1) = numel shape) rest) as Hlen.
  { eapply Forall_impl; [exact Hrest|]. intros tw (_ & Hs & Hwf). simpl.
    unfold well_formed in Hwf. by rewrite Hwf, Hs. }
  assert (merged_value loaded key
          = Some (div_scalar (accumulate (mul_scalar (float_ t0) w0) rest)
                             (py_sum (w0 :: rest.*2)))) as Hv.
  { unfold merged_value. rewrite merge_key_contributions, Hc.
    rewrite bool_decide_eq_false_2.
    - simpl. by rewrite Hsum.
    - rewrite Exists_exists. intros (tw & Htw & Hbad).
      rewrite Forall_forall in Hrest. destruct (Hrest tw Htw) as (_ & Hs & _).
      congruence. }
  eexists _, _. split; [by apply merge_models_loaded|].
  split; [by rewrite merge_loaded_lookup|].
  assert (length (t_data (accumulate (mul_scalar (float_ t0) w0) rest)) = numel shape)
    as Hlacc.
  { apply accumulate_length; [|done]. simpl.
    rewrite length_fmap, float_length. unfold well_formed in Hwf0. by rewrite Hwf0, Hs0. }
  split; [|split; [|split]].
  - simpl. rewrite accumulate_dtype. simpl. apply float_dtype.
  - simpl. rewrite accumulate_shape. simpl. by rewrite float_shape.
  - unfold well_formed. simpl. rewrite length_fmap, accumulate_shape. simpl.
    by rewrite float_shape, Hs0.
  - intros j Hj. simpl. rewrite accumulate_dtype. simpl. rewrite float_dtype.
    destruct (lookup_lt_is_Some_2 (t_data (float_ t0)) j) as [x Hx].
    { rewrite float_length. unfold well_formed in Hwf0. rewrite Hwf0, Hs0. done. }
    destruct (accumulate_lookup (mul_scalar (float_ t0) w0) rest (numel shape) j
                                (e_mul F32 x w0)) as (ps & Hps & Hlook); [| |done..|].
    { simpl. apply float_dtype. }
    { simpl. by rewrite list_lookup_fmap, Hx, float_dtype. }
    rewrite list_lookup_fmap, Hlook. unfold weighted_mean_at. simpl.
    rewrite Hx. simpl. rewrite Hps. done.
Qed.

(** *** The key loop of app.py *)

Lemma app_merge_key_value (model1 model2 : gmap string (tensor E)) w1 w2 key merged :
  app_merge_key model1 model2 w1 w2 key merged =
  match app_value model1 model2 w1 w2 key with
  | Some t => Ok (<[key := t]> merged)
  | None => Raise (KeyError key)
  end.
Proof.
  unfold app_merge_key, app_value.
  destruct (model1 !! key), (model2 !! key); try done. by case_decide.
Qed.

Lemma app_value_is_Some (model1 model2 : gmap string (tensor E)) w1 w2 key :
  is_Some (app_value model1 model2 w1 w2 key) ↔ key ∈ dom model1 ∪ dom model2.
Proof.
  rewrite elem_of_union, !elem_of_dom. unfold app_value.
  destruct (model1 !! key), (model2 !! key); split; eauto;
    intros [[? ?]|[? ?]]; done.
Qed.

Lemma app_merge_loop_ok (model1 model2 : gmap string (tensor E)) w1 w2 keys merged0 :
  (∀ k, k ∈ keys → k ∈ dom model1 ∪ dom model2) →
  ∃ merged, app_merge_loop model1 model2 w1 w2 keys merged0 = Ok merged ∧
    ∀ k, merged !! k = if decide (k ∈ keys)
                       then app_value model1 model2 w1 w2 k else merged0 !! k.
Proof.
  revert merged0. induction keys as [|key l IH]; intros merged0 Hin.
  - exists merged0. split; [done|]. intros k.
    destruct (decide (k ∈ [])) as [Hk|_]; [by apply elem_of_nil in Hk|done].
  - cbn [app_merge_loop]. rewrite app_merge_key_value.
    destruct (proj2 (app_value_is_Some model1 model2 w1 w2 key)) as [t Ht].
    { apply Hin. left. }
    rewrite Ht. simpl.
    destruct (IH (<[key := t]> merged0)) as (merged & Hloop & Hlook).
    { intros k Hk. apply Hin. by right. }
    exists merged. split; [done|]. intros k. rewrite Hlook.
    destruct (decide (k ∈ l)) as [Hkl|Hkl].
    + rewrite decide_True; [done|by right].
    + destruct (decide (key = k)) as [->|Hne].
      * rewrite decide_True by left. by rewrite lookup_insert_eq.
      * rewrite decide_False.
        { by rewrite lookup_insert_ne. }
        intros [->|?]%elem_of_cons; done.
Qed.

Lemma app_merge_dicts_ok (model1 model2 : gmap string (tensor E)) w1 w2 :
  ∃ merged, app_merge_dicts model1 model2 w1 w2 = Ok merged ∧
    ∀ k, merged !! k = app_value model1 model2 w1 w2 k.
Proof.
  unfold app_merge_dicts, app_merge_dicts_from.
  destruct (app_merge_loop_ok model1 model2 w1 w2
              (sorted (elements (dom model1 ∪ dom model2))) ∅) as (merged & Hm & Hlook).
  { intros k. by rewrite (elem_of_sorted_native elements). }
  exists merged. split; [done|]. intros k. rewrite Hlook.
  case_decide as Hin; [done|]. rewrite lookup_empty.
  rewrite (elem_of_sorted_native elements) in Hin by done.
  rewrite <-app_value_is_Some in Hin. symmetry. by apply eq_None_not_Some.
Qed.

Lemma app_merge_models_ok fs dir path1 path2 more model1 model2 w1 w2 :
  fs !! path1 = Some (Safetensors model1) →
  fs !! path2 = Some (Safetensors model2) →
  py_eqb (py_add w1 w2) py_zero = false →
  ∃ merged,
    app_merge_models fs dir (path1 :: path2 :: more) w1 w2
    = ((MergeDone path1 path2 (py_div w1 (py_add w1 w2)) (py_div w2 (py_add w1 w2))
                  (size merged),
        Some (joinpath dir "merged_model.safetensors")),
       save_file merged (joinpath dir "merged_model.safetensors") fs) ∧
    ∀ k, merged !! k
         = app_value model1 model2 (py_div w1 (py_add w1 w2))
                     (py_div w2 (py_add w1 w2)) k.
Proof.
  intros H1 H2 Hw. unfold app_merge_models, app_merge_models_from.
  rewrite Hw. unfold load_file. rewrite H1, H2. simpl.
  destruct (app_merge_dicts_ok model1 model2 (py_div w1 (py_add w1 w2))
              (py_div w2 (py_add w1 w2))) as (merged & Hm & Hlook).
  unfold app_merge_dicts in Hm. rewrite Hm. eauto.
Qed.

Lemma contributions_without loaded key :
  (∀ md, md ∈ loaded → state_dict md.2 !! key = None) →
  contributions loaded key = [].
Proof.
  intros Hno. apply contributions_nil. rewrite all_keys_union, elem_of_union_keys.
  intros (md & Hmd & [t Ht]). by rewrite (Hno md Hmd) in Ht.
Qed.

Lemma contributions_single (pre post : list (string * model_data E W)) md key t :
  state_dict md.2 !! key = Some t →
  (∀ md', md' ∈ pre ++ post → state_dict md'.2 !! key = None) →
  contributions (pre ++ md :: post) key = [(t, weight md.2)].
Proof.
  intros Ht Hno.
  assert (contributions (pre ++ md :: post) key
          = contributions pre key ++ contributions [md] key ++ contributions post key) as ->.
  { unfold contributions. change (md :: post) with ([md] ++ post).
    by rewrite !omap_app. }
  rewrite (contributions_without pre), (contributions_without post).
  - unfold contributions. simpl. by rewrite Ht.
  - intros md' Hmd'. apply Hno, elem_of_app. by right.
  - intros md' Hmd'. apply Hno, elem_of_app. by left.
Qed.

Lemma div_mul_exact (t : tensor E) (w d : W) :
  t_dtype t = F32 →
  (∀ x, e_div F32 (e_mul F32 x w) d = x) →
  div_scalar (mul_scalar t w) d = t.
Proof.
  intros Hd Hexact. unfold div_scalar, mul_scalar. simpl.
  rewrite Hd, <-list_fmap_compose.
  assert ((λ x, e_div F32 x d) ∘ (λ x, e_mul F32 x w) <$> t_data t = t_data t) as ->.
  { rewrite <-(list_fmap_id (t_data t)) at 2. apply list_fmap_ext.
    intros i x _. apply Hexact. }
  rewrite <-Hd. by destruct t.
Qed.

(** C2, amended: for a key that exactly one input holds, with a
    positive weight [w] and tensor [t]: merge.py stores [t] converted to
    float32, multiplied by [w] and divided by [w] (which is the converted
    tensor wherever that multiplication and division cancel); app.py
    stores [t] itself. *)
Theorem single_source_key fs dir models out pre md post key t
    path1 path2 more (model1 model2 : gmap string (tensor E)) w1 w2 :
  sum_of_positive_is_positive →
  load_models fs dir models [] = Ok (pre ++ md :: post) →
  state_dict md.2 !! key = Some t →
  (∀ md', md' ∈ pre ++ post → state_dict md'.2 !! key = None) →
  py_gtb (weight md.2) py_zero = true →
  fs !! path1 = Some (Safetensors model1) →
  fs !! path2 = Some (Safetensors model2) →
  py_eqb (py_add w1 w2) py_zero = false →
  (model1 !! key = Some t ∧ model2 !! key = None) ∨
  (model1 !! key = None ∧ model2 !! key = Some t) →
  (∃ st,
     merge_models fs dir models out
     = (Ok st, save_file (merged_state_dict st) (joinpath dir out) fs) ∧
     merged_state_dict st !! key
     = Some (div_scalar (mul_scalar (float_ t) (weight md.2))
                        (py_sum [weight md.2])) ∧
     ((∀ x, e_div F32 (e_mul F32 x (weight md.2)) (py_sum [weight md.2]) = x) →
      merged_state_dict st !! key = Some (float_ t))) ∧
  (∃ status merged,
     app_merge_models fs dir (path1 :: path2 :: more) w1 w2
     = ((status, Some (joinpath dir "merged_model.safetensors")),
        save_file merged (joinpath dir "merged_model.safetensors") fs) ∧
     merged !! key = Some t).
Proof.
  intros Hlaw Hload Ht Hno Hw H1 H2 Hw12 Hone. split.
  - eexists. split; [by apply merge_models_loaded|].
    assert (merged_value (pre ++ md :: post) key
            = Some (div_scalar (mul_scalar (float_ t) (weight md.2))
                               (py_sum [weight md.2]))) as Hv.
    { unfold merged_value.
      rewrite merge_key_contributions, (contributions_single _ _ _ _ t) by done.
      rewrite bool_decide_eq_false_2 by (by intros ?%Exists_nil).
      simpl. rewrite py_sum_positive; [done..|]. by constructor. }
    rewrite merge_loaded_lookup, Hv. split; [done|].
    intros Hexact. f_equal. apply div_mul_exact; [apply float_dtype|done].
  - destruct (app_merge_models_ok fs dir path1 path2 more model1 model2 w1 w2)
      as (merged & Hm & Hlook); [done..|].
    eexists _, merged. split; [exact Hm|].
    rewrite Hlook. unfold app_value.
    by destruct Hone as [[-> ->]|[-> ->]].
Qed.

Lemma load_model_ok fs dir file_name sd :
  fs !! joinpath dir file_name = Some (Safetensors sd) →
  load_model fs dir file_name = Ok sd.
Proof.
  intros Hf. unfold load_model. rewrite decide_True by (by rewrite Hf).
  unfold load_file. by rewrite Hf.
Qed.

Lemma load_models_single fs dir name file_name (w : W) sd :
  fs !! joinpath dir file_name = Some (Safetensors sd) →
  load_models fs dir [(name, (file_name, w))] [] = Ok [(name, ModelData sd w)].
Proof. intros Hf. cbn [load_models]. by rewrite (load_model_ok _ _ _ sd). Qed.

Lemma scale_by_one (t : tensor E) :
  one_is_neutral →
  t_dtype t = F32 →
  div_scalar (mul_scalar t py_one) (py_sum [py_one]) = t.
Proof.
  intros (Hadd & _ & Hmul & Hdiv) Hd. apply div_mul_exact; [done|].
  intros x. unfold py_sum. simpl. by rewrite Hadd, Hmul, Hdiv.
Qed.

(** C8, amended: merging one input alone with weight 1.0 yields the
    input's keys, each with its tensor converted to float32, and skips
    nothing; the output is the input unchanged when all its tensors are
    float32. *)
Theorem single_input_is_float32_copy fs dir name file_name out
    (sd : gmap string (tensor E)) :
  one_is_neutral →
  fs !! joinpath dir file_name = Some (Safetensors sd) →
  ∃ st,
    merge_models fs dir [(name, (file_name, py_one))] out
    = (Ok st, save_file (merged_state_dict st) (joinpath dir out) fs) ∧
    merged_state_dict st = float_ <$> sd ∧
    skipped_keys st = [] ∧
    ((∀ k t, sd !! k = Some t → t_dtype t = F32) → merged_state_dict st = sd).
Proof.
  intros Hlaw Hf.
  pose proof (load_models_single fs dir name file_name py_one sd Hf) as Hload.
  assert (∀ key, merged_value [(name, ModelData sd py_one)] key = float_ <$> sd !! key)
    as Hv.
  { intros key. unfold merged_value. rewrite merge_key_contributions.
    unfold contributions. simpl. destruct (sd !! key) as [t|]; simpl; [|done].
    destruct Hlaw as (Hadd & Hpos & Hmul & Hdiv).
    replace (py_gtb (py_sum [py_one]) py_zero) with true
      by (unfold py_sum; simpl; by rewrite Hadd).
    f_equal. apply scale_by_one; [done|apply float_dtype]. }
  eexists. split; [by apply merge_models_loaded|].
  assert (merged_state_dict (merge_loaded [(name, ModelData sd py_one)]
            (weights_warning [(name, (file_name, py_one))])) = float_ <$> sd) as Hm.
  { apply map_eq. intros key. by rewrite merge_loaded_lookup, lookup_fmap, Hv. }
  split; [done|]. split.
  - apply elem_of_nil_inv. intros key [Hin Hnone]%elem_of_skipped.
    rewrite Hv in Hnone. rewrite all_keys_union, elem_of_union_keys in Hin.
    destruct Hin as (md & ->%list_elem_of_singleton & [t Ht]). simpl in Ht.
    by rewrite Ht in Hnone.
  - intros Hf32. rewrite Hm. apply map_eq. intros key. rewrite lookup_fmap.
    destruct (sd !! key) as [t|] eqn:Ht; [|done]. simpl.
    by rewrite float_F32 by eauto.
Qed.

Lemma load_models_two fs dir name1 name2 file1 file2 (w1 w2 : W) model1 model2 :
  name1 ≠ name2 →
  fs !! joinpath dir file1 = Some (Safetensors model1) →
  fs !! joinpath dir file2 = Some (Safetensors model2) →
  load_models fs dir [(name1, (file1, w1)); (name2, (file2, w2))] []
  = Ok [(name1, ModelData model1 w1); (name2, ModelData model2 w2)].
Proof.
  intros Hne H1 H2. cbn [load_models].
  rewrite (load_model_ok _ _ _ _ H1), (load_model_ok _ _ _ _ H2).
  simpl. by rewrite decide_False.
Qed.

(** C6: on two checkpoints that hold [key] with tensors of different
    shapes, app.py stores the first checkpoint's tensor under [key]
    while merge.py stores nothing and records [key] as skipped: the two
    merged mappings differ. *)
Theorem mismatch_policies_disagree fs dir name1 name2 file1 file2 (w1 w2 : W) out
    (model1 model2 : gmap string (tensor E)) key t1 t2 :
  name1 ≠ name2 →
  fs !! joinpath dir file1 = Some (Safetensors model1) →
  fs !! joinpath dir file2 = Some (Safetensors model2) →
  model1 !! key = Some t1 →
  model2 !! key = Some t2 →
  t_shape t1 ≠ t_shape t2 →
  py_eqb (py_add w1 w2) py_zero = false →
  ∃ st status merged,
    merge_models fs dir [(name1, (file1, w1)); (name2, (file2, w2))] out
    = (Ok st, save_file (merged_state_dict st) (joinpath dir out) fs) ∧
    app_merge_models fs dir [joinpath dir file1; joinpath dir file2] w1 w2
    = ((status, Some (joinpath dir "merged_model.safetensors")),
       save_file merged (joinpath dir "merged_model.safetensors") fs) ∧
    merged !! key = Some t1 ∧
    merged_state_dict st !! key = None ∧
    key ∈ skipped_keys st ∧
    merged ≠ merged_state_dict st.
Proof.
  intros Hne H1 H2 Ht1 Ht2 Hshape Hw.
  pose proof (load_models_two fs dir name1 name2 file1 file2 w1 w2 _ _ Hne H1 H2)
    as Hload.
  assert (merge_key [(name1, ModelData model1 w1); (name2, ModelData model2 w2)] key
          = ShapeMismatch) as Hmis.
  { apply (merged_value_mismatch _ _ (name1, ModelData model1 w1)
             (name2, ModelData model2 w2) t1 t2); try done; set_solver. }
  destruct (app_merge_models_ok fs dir _ _ [] model1 model2 w1 w2 H1 H2 Hw)
    as (merged & Hm & Hlook).
  eexists _, _, merged. split; [by apply merge_models_loaded|]. split; [exact Hm|].
  assert (merged_value [(name1, ModelData model1 w1); (name2, ModelData model2 w2)] key
          = None) as Hnone by (unfold merged_value; by rewrite Hmis).
  rewrite merge_loaded_lookup, elem_of_skipped, Hnone.
  assert (key ∈ all_keys [(name1, ModelData model1 w1); (name2, ModelData model2 w2)])
    as Hskip.
  { rewrite all_keys_union, elem_of_union_keys.
    exists (name1, ModelData model1 w1). split; [left|]. simpl. eauto. }
  assert (merged !! key = Some t1) as Hk.
  { rewrite Hlook. unfold app_value. rewrite Ht1, Ht2. by rewrite decide_False. }
  repeat split; try done. intros ->.
  rewrite merge_loaded_lookup in Hk. congruence.
Qed.

(** C7: the result of either merge (mapping, report and storage) does
    not depend on the order in which the run iterates sets: the keys are
    processed in the order of [sorted], which is sorted for [String.le],
    holds exactly the keys of the set and is the same in every run. *)
Theorem merge_is_deterministic (native1 native2 : gset string → list string) :
  (∀ s, native1 s ≡ₚ elements s) →
  (∀ s, native2 s ≡ₚ elements s) →
  (∀ fs dir models out,
     merge_models_from native1 fs dir models out
     = merge_models_from native2 fs dir models out) ∧
  (∀ fs dir files (w1 w2 : W),
     app_merge_models_from native1 fs dir files w1 w2
     = app_merge_models_from native2 fs dir files w1 w2) ∧
  (∀ s, sorted (native1 s) = sorted (native2 s) ∧
        StronglySorted String.le (sorted (native1 s)) ∧
        sorted (native1 s) ≡ₚ elements s).
Proof.
  intros Hn1 Hn2.
  assert (∀ s, sorted (native1 s) = sorted (native2 s)) as Hs.
  { intros s. by rewrite (sorted_native_elements native1 Hn1),
                       (sorted_native_elements native2 Hn2). }
  split; [|split].
  - intros fs dir models out. unfold merge_models_from, merge_loaded_from.
    destruct (load_models fs dir models []); [|done]. simpl. by rewrite Hs.
  - intros fs dir files w1 w2.
    unfold app_merge_models_from, app_merge_dicts_from.
    destruct (py_eqb _ _); [done|]. destruct files as [|p1 [|p2 more]]; [done..|].
    destruct (load_file fs p1) as [m1|]; [|done]. simpl.
    destruct (load_file fs p2) as [m2|]; [|done]. simpl. by rewrite Hs.
  - intros s. split; [done|]. split; [apply sorted_StronglySorted|].
    by rewrite sorted_Permutation.
Qed.

(** *** Loading *)

Lemma load_model_missing fs dir file_name :
  fs !! joinpath dir file_name = None →
  load_model fs dir file_name = Raise (FileNotFoundError (joinpath dir file_name)).
Proof.
  intros Hf. unfold load_model. rewrite decide_False; [done|].
  rewrite Hf. by intros [? ?].
Qed.

Lemma load_model_cases fs dir file_name :
  (∃ sd, fs !! joinpath dir file_name = Some (Safetensors sd) ∧
         load_model fs dir file_name = Ok sd) ∨
  (fs !! joinpath dir file_name = Some Unreadable ∧
   load_model fs dir file_name = Raise (LoadError (joinpath dir file_name))) ∨
  (fs !! joinpath dir file_name = None ∧
   load_model fs dir file_name = Raise (FileNotFoundError (joinpath dir file_name))).
Proof.
  destruct (fs !! joinpath dir file_name) as [[sd|]|] eqn:Hf.
  - left. exists sd. split; [done|]. by apply load_model_ok.
  - right; left. split; [done|]. unfold load_model.
    rewrite decide_True by (by rewrite Hf). unfold load_file. by rewrite Hf.
  - right; right. split; [done|]. by apply load_model_missing.
Qed.

(** Loading stops at the first entry whose file does not load, with
    the exception of that entry. *)
Lemma load_models_first_failure fs dir models loaded0 m :
  m ∈ models →
  fs !! joinpath dir m.2.1 = None →
  ∃ e pre m' post,
    load_models fs dir models loaded0 = Raise e ∧
    models = pre ++ m' :: post ∧
    Forall (λ x : string * (string * W),
              ∃ sd, fs !! joinpath dir x.2.1 = Some (Safetensors sd)) pre ∧
    m ∈ m' :: post ∧
    ((fs !! joinpath dir m'.2.1 = None ∧
      e = FileNotFoundError (joinpath dir m'.2.1)) ∨
     (fs !! joinpath dir m'.2.1 = Some Unreadable ∧
      e = LoadError (joinpath dir m'.2.1))).
Proof.
  intros Hin Hm. revert loaded0.
  induction models as [|[name [file_name w]] l IH]; intros loaded0.
  - by apply elem_of_nil in Hin.
  - cbn [load_models].
    destruct (load_model_cases fs dir file_name)
      as [(sd & Hf & ->)|[[Hf ->]|[Hf ->]]]; simpl.
    + apply elem_of_cons in Hin as [->|Hin]; [simpl in Hm; congruence|].
      destruct (IH Hin (dict_set name (ModelData sd w) loaded0))
        as (e & pre & m' & post & Hload & -> & Hpre & Hm' & He).
      exists e, ((name, (file_name, w)) :: pre), m', post.
      split; [done|]. split; [done|]. split; [|done].
      constructor; [|done]. by exists sd.
    + exists (LoadError (joinpath dir file_name)), [], (name, (file_name, w)), l.
      split; [done|]. split; [done|]. split; [constructor|].
      split; [done|]. by right.
    + exists (FileNotFoundError (joinpath dir file_name)), [],
             (name, (file_name, w)), l.
      split; [done|]. split; [done|]. split; [constructor|].
      split; [done|]. by left.
Qed.

Lemma load_models_first_missing fs dir pre name file_name (w : W) post loaded0 :
  Forall (λ m : string * (string * W),
            ∃ sd, fs !! joinpath dir m.2.1 = Some (Safetensors sd)) pre →
  fs !! joinpath dir file_name = None →
  load_models fs dir (pre ++ (name, (file_name, w)) :: post) loaded0
  = Raise (FileNotFoundError (joinpath dir file_name)).
Proof.
  intros Hpre Hf. revert loaded0.
  induction Hpre as [|[n [f w']] l [sd Hsd] _ IH]; intros loaded0.
  - cbn [app load_models]. by rewrite load_model_missing.
  - cbn [app load_models]. simpl in Hsd. rewrite (load_model_ok _ _ _ _ Hsd). simpl.
    apply IH.
Qed.

(** C9, amended: when the file of some entry [m] of [models] does not
    exist, the merge raises before the key loop and leaves the storage
    as it was.  The exception is that of the first entry [m'] of
    [models] whose file does not load, which is [m] or an entry listed
    before it: [FileNotFoundError] for the path of [m'] when that file
    is missing, the load error for the path of [m'] when it is
    unreadable.  So it is [FileNotFoundError] for the file of [m] when
    every entry before [m] loads. *)
Theorem missing_model_fails_fast fs dir models out m :
  m ∈ models →
  fs !! joinpath dir m.2.1 = None →
  ∃ e pre m' post,
    merge_models fs dir models out = (Raise e, fs) ∧
    models = pre ++ m' :: post ∧
    Forall (λ x : string * (string * W),
              ∃ sd, fs !! joinpath dir x.2.1 = Some (Safetensors sd)) pre ∧
    m ∈ m' :: post ∧
    ((fs !! joinpath dir m'.2.1 = None ∧
      e = FileNotFoundError (joinpath dir m'.2.1)) ∨
     (fs !! joinpath dir m'.2.1 = Some Unreadable ∧
      e = LoadError (joinpath dir m'.2.1))) ∧
    ∀ pre0 post0,
      models = pre0 ++ m :: post0 →
      Forall (λ x : string * (string * W),
                ∃ sd, fs !! joinpath dir x.2.1 = Some (Safetensors sd)) pre0 →
      e = FileNotFoundError (joinpath dir m.2.1).
Proof.
  intros Hin Hm.
  destruct (load_models_first_failure fs dir models [] m Hin Hm)
    as (e & pre & m' & post & Hload & Hmodels & Hpre & Hm' & He).
  exists e, pre, m', post.
  unfold merge_models, merge_models_from. rewrite Hload.
  do 5 (split; [done|]).
  intros pre0 post0 Hmodels0 Hpre0. destruct m as [name [file_name w]].
  rewrite Hmodels0 in Hload.
  rewrite (load_models_first_missing fs dir pre0 name file_name w post0 [])
    in Hload by done.
  simpl. congruence.
Qed.

(** C3, amended: app.py returns its error message and writes nothing
    when the two weights sum to zero, and likewise when fewer than two
    checkpoints are found; merge.py has no such check: whatever the
    weights, and also with no input at all, it succeeds and writes the
    output once every input file has loaded. *)
Theorem zero_weights_policy fs dir files (w1 w2 : W) models out loaded :
  (py_eqb (py_add w1 w2) py_zero = true →
   app_merge_models fs dir files w1 w2 = ((BothWeightsZero, None), fs)) ∧
  (py_eqb (py_add w1 w2) py_zero = false → length files < 2 →
   app_merge_models fs dir files w1 w2 = ((NeedTwoModels files, None), fs)) ∧
  (load_models fs dir models [] = Ok loaded →
   ∃ st,
     merge_models fs dir models out
     = (Ok st, save_file (merged_state_dict st) (joinpath dir out) fs) ∧
     save_file (merged_state_dict st) (joinpath dir out) fs !! joinpath dir out
     = Some (Safetensors (merged_state_dict st))).
Proof.
  split; [|split].
  - intros Hz. unfold app_merge_models, app_merge_models_from. by rewrite Hz.
  - intros Hz Hlen. unfold app_merge_models, app_merge_models_from. rewrite Hz.
    destruct files as [|p1 [|p2 more]]; [done..|]. simpl in Hlen. lia.
  - intros Hload. eexists. split; [by apply merge_models_loaded|].
    apply lookup_insert_eq.
Qed.

End Facts.

(** ** The scenarios, in exact arithmetic *)

Lemma exact_sum_of_positive : sum_of_positive_is_positive (E := Qc) (W := Qc).
Proof.
  intros a b Ha Hb. simpl in *. apply bool_decide_eq_true in Hb.
  apply bool_decide_eq_true. destruct Ha as [->|Ha%bool_decide_eq_true].
  - by rewrite Qcplus_0_l.
  - apply Qcplus_pos_nonneg; [done|]. by apply Qclt_le_weak.
Qed.

Lemma weighted_average_witness :
  ∃ st t,
    merge_models disk "models"
      [("a", ("a.safetensors", dec 6 10)); ("b", ("b.safetensors", dec 4 10))]
      "merged_sdxl.safetensors"
    = (Ok st, save_file (merged_state_dict st)
                        (joinpath "models" "merged_sdxl.safetensors") disk) ∧
    merged_state_dict st !! "w1" = Some t ∧
    t_dtype t = F32 ∧ t_shape t = [2; 2] ∧ well_formed t ∧
    ∀ j, j < numel [2; 2] →
         t_data t !! j = weighted_mean_at [(ones, dec 6 10); (threes, dec 4 10)] j.
Proof.
  apply (weighted_average disk "models" _ _
           [("a", ModelData model_a (dec 6 10)); ("b", ModelData model_b (dec 4 10))]).
  - exact exact_sum_of_positive.
  - vm_compute. reflexivity.
  - discriminate.
  - repeat constructor.
  - repeat constructor.
Defined.

Example scenario_1_8 :
  weighted_mean_at [(ones, dec 6 10); (threes, dec 4 10)] 0 = Some (dec 18 10).
Proof. by compute_done. Qed.

Lemma exact_one_is_neutral : one_is_neutral (E := Qc) (W := Qc).
Proof.
  split; [apply Qcplus_0_l|]. split; [done|]. split.
  - intros x. apply Qcmult_1_r.
  - intros x. apply (right_id 1%Qc Qcdiv).
Qed.

Lemma union_key_count_invariant_witness :
  ∃ st,
    merge_models disk "models"
      [("a", ("a.safetensors", dec 1 2)); ("bad", ("bad.safetensors", dec 1 2));
       ("half", ("half.safetensors", dec 1 2))] "out.safetensors"
    = (Ok st, save_file (merged_state_dict st)
                        (joinpath "models" "out.safetensors") disk) ∧
    merged_count st + length (skipped_keys st)
    = size (union_keys [("a", ModelData model_a (dec 1 2));
                        ("bad", ModelData model_bad (dec 1 2));
                        ("half", ModelData model_half (dec 1 2))]) ∧
    merged_count st = size (merged_state_dict st) ∧
    ∀ key, key ∈ union_keys [("a", ModelData model_a (dec 1 2));
                             ("bad", ModelData model_bad (dec 1 2));
                             ("half", ModelData model_half (dec 1 2))] ↔
           (key ∈ dom (merged_state_dict st) ∧ key ∉ skipped_keys st) ∨
           (key ∈ skipped_keys st ∧ key ∉ dom (merged_state_dict st)).
Proof.
  apply (union_key_count_invariant disk "models"). vm_compute. reflexivity.
Defined.

Lemma shape_mismatch_skips_key_witness :
  ∃ st,
    merge_models disk "models"
      [("a", ("a.safetensors", dec 1 2)); ("bad", ("bad.safetensors", dec 1 2))]
      "out.safetensors"
    = (Ok st, save_file (merged_state_dict st)
                        (joinpath "models" "out.safetensors") disk) ∧
    merged_state_dict st !! "w1" = None ∧
    "w1" ∈ skipped_keys st ∧
    SkipShapeMismatch "w1" ∈ output st ∧
    ∀ key', key' ∈ union_keys [("a", ModelData model_a (dec 1 2));
                               ("bad", ModelData model_bad (dec 1 2))] →
            key' ∈ dom (merged_state_dict st) ∨ key' ∈ skipped_keys st.
Proof.
  apply (shape_mismatch_skips_key disk "models" _ _ _ "w1"
           ("a", ModelData model_a (dec 1 2)) ("bad", ModelData model_bad (dec 1 2))
           ones nine).
  - vm_compute. reflexivity.
  - left.
  - right. left.
  - reflexivity.
  - reflexivity.
  - discriminate.
Defined.

Lemma merged_tensors_are_float32_witness :
  let st := merge_loaded [("half", ModelData model_half (dec 1 1))] [] in
  let t := div_scalar (mul_scalar (float_ half) (dec 1 1)) (py_sum [dec 1 1]) in
  t_dtype t = F32 ∧
  save_file (merged_state_dict st) (joinpath "models" "out.safetensors") disk
  !! joinpath "models" "out.safetensors"
  = Some (Safetensors (merged_state_dict st)).
Proof.
  intros st t.
  apply (merged_tensors_are_float32 disk "models"
           [("half", ("half.safetensors", dec 1 1))] "out.safetensors"
           st _ "only_a" t).
  - vm_compute. reflexivity.
  - vm_compute. reflexivity.
Defined.

Lemma single_source_key_witness :
  (∃ st,
     merge_models disk "models"
       [("half", ("half.safetensors", dec 1 2)); ("a", ("a.safetensors", dec 1 2))]
       "out.safetensors"
     = (Ok st, save_file (merged_state_dict st)
                         (joinpath "models" "out.safetensors") disk) ∧
     merged_state_dict st !! "only_a"
     = Some (div_scalar (mul_scalar (float_ half) (dec 1 2)) (py_sum [dec 1 2])) ∧
     ((∀ x, e_div F32 (e_mul F32 x (dec 1 2)) (py_sum [dec 1 2]) = x) →
      merged_state_dict st !! "only_a" = Some (float_ half))) ∧
  (∃ status merged,
     app_merge_models disk "models"
       ["models/half.safetensors"; "models/a.safetensors"] (dec 1 2) (dec 1 2)
     = ((status, Some (joinpath "models" "merged_model.safetensors")),
        save_file merged (joinpath "models" "merged_model.safetensors") disk) ∧
     merged !! "only_a" = Some half).
Proof.
  apply (single_source_key disk "models" _ "out.safetensors"
           [] ("half", ModelData model_half (dec 1 2))
           [("a", ModelData model_a (dec 1 2))] "only_a" half
           "models/half.safetensors" "models/a.safetensors" []
           model_half model_a (dec 1 2) (dec 1 2)).
  - exact exact_sum_of_positive.
  - vm_compute. reflexivity.
  - reflexivity.
  - intros md' ->%list_elem_of_singleton. reflexivity.
  - reflexivity.
  - reflexivity.
  - reflexivity.
  - reflexivity.
  - left. split; reflexivity.
Defined.

Lemma mismatch_policies_disagree_witness :
  ∃ st status merged,
    merge_models disk "models"
      [("a", ("a.safetensors", dec 1 2)); ("bad", ("bad.safetensors", dec 1 2))]
      "out.safetensors"
    = (Ok st, save_file (merged_state_dict st)
                        (joinpath "models" "out.safetensors") disk) ∧
    app_merge_models disk "models"
      [joinpath "models" "a.safetensors"; joinpath "models" "bad.safetensors"]
      (dec 1 2) (dec 1 2)
    = ((status, Some (joinpath "models" "merged_model.safetensors")),
       save_file merged (joinpath "models" "merged_model.safetensors") disk) ∧
    merged !! "w1" = Some ones ∧
    merged_state_dict st !! "w1" = None ∧
    "w1" ∈ skipped_keys st ∧
    merged ≠ merged_state_dict st.
Proof.
  apply (mismatch_policies_disagree disk "models" "a" "bad"
           "a.safetensors" "bad.safetensors" (dec 1 2) (dec 1 2) "out.safetensors"
           model_a model_bad "w1" ones nine).
  - discriminate.
  - reflexivity.
  - reflexivity.
  - reflexivity.
  - reflexivity.
  - discriminate.
  - reflexivity.
Defined.

Lemma merge_is_deterministic_witness :
  (∀ (fs : gmap string (file Qc)) dir models out,
     merge_models_from elements fs dir models out
     = merge_models_from (reverse ∘ elements) fs dir models out) ∧
  (∀ (fs : gmap string (file Qc)) dir files (w1 w2 : Qc),
     app_merge_models_from elements fs dir files w1 w2
     = app_merge_models_from (reverse ∘ elements) fs dir files w1 w2) ∧
  (∀ s : gset string,
     sorted (elements s) = sorted ((reverse ∘ elements) s) ∧
     StronglySorted String.le (sorted (elements s)) ∧
     sorted (elements s) ≡ₚ elements s).
Proof.
  apply (merge_is_deterministic (E := Qc) (W := Qc) elements (reverse ∘ elements)).
  - intros s. reflexivity.
  - intros s. apply reverse_Permutation.
Defined.

Lemma single_input_is_float32_copy_witness :
  ∃ st,
    merge_models disk "models" [("half", ("half.safetensors", py_one))]
                 "out.safetensors"
    = (Ok st, save_file (merged_state_dict st)
                        (joinpath "models" "out.safetensors") disk) ∧
    merged_state_dict st = float_ <$> model_half ∧
    skipped_keys st = [] ∧
    ((∀ k t, model_half !! k = Some t → t_dtype t = F32) →
     merged_state_dict st = model_half).
Proof.
  apply (single_input_is_float32_copy disk "models" "half" "half.safetensors").
  - exact exact_one_is_neutral.
  - reflexivity.
Defined.

Lemma missing_model_fails_fast_witness :
  merge_models disk "models" models_missing "out.safetensors"
  = (Raise (LoadError "models/corrupt.safetensors"), disk) ∧
  ∃ e pre m' post,
    merge_models disk "models" models_missing "out.safetensors"
    = (Raise e, disk) ∧
    models_missing = pre ++ m' :: post ∧
    Forall (λ x : string * (string * Qc),
              ∃ sd, disk !! joinpath "models" x.2.1 = Some (Safetensors sd)) pre ∧
    ("m", ("missing.safetensors", dec 1 3)) ∈ m' :: post ∧
    ((disk !! joinpath "models" m'.2.1 = None ∧
      e = FileNotFoundError (joinpath "models" m'.2.1)) ∨
     (disk !! joinpath "models" m'.2.1 = Some Unreadable ∧
      e = LoadError (joinpath "models" m'.2.1))) ∧
    ∀ pre0 post0,
      models_missing = pre0 ++ ("m", ("missing.safetensors", dec 1 3)) :: post0 →
      Forall (λ x : string * (string * Qc),
                ∃ sd, disk !! joinpath "models" x.2.1 = Some (Safetensors sd)) pre0 →
      e = FileNotFoundError (joinpath "models" "missing.safetensors").
Proof.
  split; [reflexivity|].
  apply (missing_model_fails_fast disk "models" models_missing "out.safetensors"
           ("m", ("missing.safetensors", dec 1 3))).
  - right. right. left.
  - reflexivity.
Defined.

Lemma zero_weights_policy_witness :
  app_merge_models disk "models"
    ["models/a.safetensors"; "models/b.safetensors"] (dec 0 1) (dec 0 1)
  = ((BothWeightsZero, None), disk) ∧
  app_merge_models disk "models" ["models/a.safetensors"] (dec 1 2) (dec 1 2)
  = ((NeedTwoModels ["models/a.safetensors"], None), disk) ∧
  ∃ st,
    merge_models disk "models"
      [("a", ("a.safetensors", dec 0 1)); ("b", ("b.safetensors", dec 0 1))]
      "out.safetensors"
    = (Ok st, save_file (merged_state_dict st)
                        (joinpath "models" "out.safetensors") disk) ∧
    save_file (merged_state_dict st) (joinpath "models" "out.safetensors") disk
    !! joinpath "models" "out.safetensors"
    = Some (Safetensors (merged_state_dict st)).
Proof.
  split; [|split].
  - apply (zero_weights_policy disk "models" _ (dec 0 1) (dec 0 1) [] "" []).
    reflexivity.
  - apply (zero_weights_policy disk "models" _ (dec 1 2) (dec 1 2) [] "" []).
    + reflexivity.
    + simpl. lia.
  - apply (zero_weights_policy disk "models" [] (dec 0 1) (dec 0 1) _ _
             [("a", ModelData model_a (dec 0 1)); ("b", ModelData model_b (dec 0 1))]).
    vm_compute. reflexivity.
Defined.

Lemma lone_key_zero_weight_cex :
  ∃ st fs',
    merge_models disk "models"
      [("half", ("half.safetensors", dec 0 1)); ("a", ("a.safetensors", dec 1 1))]
      "out.safetensors" = (Ok st, fs') ∧
    model_half !! "only_a" = Some half ∧
    model_a !! "only_a" = None ∧
    merged_state_dict st !! "only_a" = Some (Tensor F32 [1] [dec 0 1]) ∧
    merged_state_dict st !! "only_a" ≠ Some half.
Proof.
  eexists _, _. split; [vm_compute; reflexivity|].
  split; [reflexivity|]. split; [reflexivity|].
  split; [by compute_done|]. by compute_done.
Qed.

Lemma all_zero_weights_cex :
  ∃ st fs',
    merge_models disk "models"
      [("a", ("a.safetensors", dec 0 1)); ("b", ("b.safetensors", dec 0 1))]
      "out.safetensors" = (Ok st, fs') ∧
    disk !! "models/out.safetensors" = None ∧
    fs' !! "models/out.safetensors" = Some (Safetensors (merged_state_dict st)) ∧
    merged_state_dict st !! "w1"
    = Some (Tensor F32 [2; 2] [dec 0 1; dec 0 1; dec 0 1; dec 0 1]) ∧
    merge_models disk "models" [] "out.safetensors"
    = (Ok (MergeState ∅ [] 0 [WeightsWarning (dec 0 1)]),
       <["models/out.safetensors" := Safetensors ∅]> disk).
Proof.
  eexists _, _. split; [vm_compute; reflexivity|].
  split; [reflexivity|]. split; [reflexivity|].
  split; [by compute_done|]. vm_compute. reflexivity.
Qed.

Lemma half_precision_input_cex :
  ∃ st fs',
    merge_models disk "models" [("half", ("half.safetensors", py_one))]
                 "out.safetensors" = (Ok st, fs') ∧
    disk !! "models/half.safetensors" = Some (Safetensors model_half) ∧
    model_half !! "only_a" = Some (Tensor F16 [1] [dec 1 1]) ∧
    merged_state_dict st !! "only_a" = Some (Tensor F32 [1] [dec 1 1]) ∧
    merged_state_dict st ≠ model_half.
Proof.
  eexists _, _. split; [vm_compute; reflexivity|].
  split; [reflexivity|]. split; [reflexivity|].
  split; [by compute_done|].
  intros Heq. apply (f_equal (λ m, t_dtype <$> m !! "only_a")) in Heq.
  vm_compute in Heq. discriminate.
Qed.

Lemma corrupt_before_missing_cex :
  disk !! joinpath "models" "missing.safetensors" = None ∧
  merge_models disk "models"
    [("c", ("corrupt.safetensors", dec 1 2)); ("m", ("missing.safetensors", dec 1 2))]
    "out.safetensors"
  = (Raise (LoadError "models/corrupt.safetensors"), disk) ∧
  ∀ path, LoadError "models/corrupt.safetensors" ≠ FileNotFoundError path.
Proof. split; [reflexivity|]. split; [reflexivity|]. discriminate. Qed.

(** * More of the code *)

Lemma StronglySorted_filter {A} (R : relation A) (P : A → Prop)
    `{!∀ x, Decision (P x)} (l : list A) :
  StronglySorted R l → StronglySorted R (filter P l).
Proof.
  induction 1 as [|x l Hl IH Hx]; [constructor|].
  rewrite filter_cons. case_decide; [|done].
  constructor; [done|]. rewrite Forall_forall in Hx |- *.
  intros y [_ Hy]%list_elem_of_filter. by apply Hx.
Qed.

Lemma dict_set_fresh {V} (k : string) (v : V) (d : list (string * V)) :
  k ∉ d.*1 → dict_set k v d = d ++ [(k, v)].
Proof.
  induction d as [|[k' v'] d IH]; intros Hk; simpl; [done|].
  apply not_elem_of_cons in Hk as [Hne Hk]. simpl in Hne.
  rewrite decide_False by done. by rewrite IH.
Qed.

Lemma joinpath_nonempty (dir name : string) : joinpath dir name ≠ "".
Proof. unfold joinpath. by destruct dir. Qed.

Section More.
Context `{!Arith E W}.
Implicit Types (loaded : list (string * model_data E W)) (key : string).
Implicit Types (st : merge_state E W) (keys : list string).
Implicit Types (fs : gmap string (file E)).
Implicit Types (models : list (string * (string * W))).

Lemma merge_models_state fs dir models out loaded st fs' :
  load_models fs dir models [] = Ok loaded →
  merge_models fs dir models out = (Ok st, fs') →
  st = merge_loaded loaded (weights_warning models) ∧
  fs' = save_file (merged_state_dict st) (joinpath dir out) fs.
Proof.
  intros Hload Hm. rewrite (merge_models_loaded _ _ _ _ _ Hload) in Hm.
  by injection Hm as <- <-.
Qed.

(** The value stored for a key whose contributions agree on the shape. *)
Lemma merged_value_same_shape loaded key t0 w0 rest :
  contributions loaded key = (t0, w0) :: rest →
  Forall (λ tw : tensor E * W, t_shape tw.1 = t_shape t0) rest →
  merged_value loaded key
  = Some (if py_gtb (py_sum (w0 :: rest.*2)) py_zero
          then div_scalar (accumulate (mul_scalar (float_ t0) w0) rest)
                          (py_sum (w0 :: rest.*2))
          else accumulate (mul_scalar (float_ t0) w0) rest).
Proof.
  intros Hc Hshape. unfold merged_value. rewrite merge_key_contributions, Hc.
  rewrite bool_decide_eq_false_2; [done|].
  rewrite Exists_exists. intros (tw & Htw & Hbad).
  rewrite Forall_forall in Hshape. by apply Hbad, Hshape.
Qed.

Lemma accumulate_at (t0 : tensor E) (w0 : W) (rest : list (tensor E * W)) n j :
  Forall (λ tw : tensor E * W, length (t_data tw.1) = n) ((t0, w0) :: rest) →
  j < n →
  t_data (accumulate (mul_scalar (float_ t0) w0) rest) !! j
  = weighted_sum_at ((t0, w0) :: rest) j ∧
  is_Some (weighted_sum_at ((t0, w0) :: rest) j).
Proof.
  intros [Hl0 Hrest]%Forall_cons Hj. simpl in Hl0.
  destruct (lookup_lt_is_Some_2 (t_data (float_ t0)) j) as [x Hx].
  { rewrite float_length. lia. }
  destruct (accumulate_lookup (mul_scalar (float_ t0) w0) rest n j
              (e_mul F32 x w0)) as (ps & Hps & Hlook); [| |done..|].
  { simpl. apply float_dtype. }
  { simpl. by rewrite list_lookup_fmap, Hx, float_dtype. }
  rewrite Hlook. unfold weighted_sum_at. simpl. rewrite Hx. simpl.
  rewrite Hps. simpl. eauto.
Qed.

Lemma weighted_mean_sum_at (cs : list (tensor E * W)) j :
  weighted_mean_at cs j
  = (λ total, e_div F32 total (py_sum cs.*2)) <$> weighted_sum_at cs j.
Proof.
  unfold weighted_mean_at, weighted_sum_at.
  destruct (mapM _ cs) as [ps|]; simpl; [|done].
  by destruct (sum_elements ps).
Qed.

(** X1: a key that only some inputs hold, all with one shape, is merged
    from those inputs alone: element [j] of the stored tensor is the
    weighted sum over the inputs that hold the key, divided by the sum
    of their weights only; when that sum is not positive, the weighted
    sum is stored undivided. *)
Theorem renormalised_over_contributors fs dir models out loaded st fs' key shape :
  load_models fs dir models [] = Ok loaded →
  merge_models fs dir models out = (Ok st, fs') →
  contributions loaded key ≠ [] →
  Forall (λ tw, t_shape tw.1 = shape ∧ well_formed tw.1)
         (contributions loaded key) →
  ∃ t,
    merged_state_dict st !! key = Some t ∧
    t_shape t = shape ∧ well_formed t ∧
    ∀ j, j < numel shape →
      t_data t !! j
      = if py_gtb (py_sum (contributions loaded key).*2) py_zero
        then weighted_mean_at (contributions loaded key) j
        else weighted_sum_at (contributions loaded key) j.
Proof.
  intros Hload Hm Hne Hall.
  destruct (merge_models_state _ _ _ _ _ _ _ Hload Hm) as [-> _].
  destruct (contributions loaded key) as [|[t0 w0] rest] eqn:Hc; [done|].
  pose proof Hall as [(Hs0 & Hwf0) Hrest]%Forall_cons. simpl in Hs0, Hwf0.
  assert (Forall (λ tw : tensor E * W, length (t_data tw.1) = numel shape)
                 ((t0, w0) :: rest)) as Hlen.
  { eapply Forall_impl; [exact Hall|]. intros tw [Hs Hwf]. simpl.
    unfold well_formed in Hwf. by rewrite Hwf, Hs. }
  assert (length (t_data (accumulate (mul_scalar (float_ t0) w0) rest))
          = numel shape) as Hlacc.
  { apply Forall_cons in Hlen as [Hl0 Hlrest].
    apply accumulate_length; [|done]. simpl.
    by rewrite length_fmap, float_length. }
  rewrite merge_loaded_lookup, (merged_value_same_shape _ _ t0 w0 rest Hc).
  2:{ eapply Forall_impl; [exact Hrest|]. intros tw [Hs _]. congruence. }
  eexists. split; [done|].
  change (((t0, w0) :: rest).*2) with (w0 :: rest.*2).
  destruct (py_gtb (py_sum (w0 :: rest.*2)) py_zero) eqn:Hpos.
  - split; [|split].
    + simpl. rewrite accumulate_shape. simpl. by rewrite float_shape.
    + unfold well_formed. simpl. rewrite length_fmap, accumulate_shape. simpl.
      by rewrite float_shape, Hs0.
    + intros j Hj. rewrite weighted_mean_sum_at.
      change (((t0, w0) :: rest).*2) with (w0 :: rest.*2). simpl.
      rewrite list_lookup_fmap, accumulate_dtype. simpl. rewrite float_dtype.
      by destruct (accumulate_at t0 w0 rest (numel shape) j Hlen Hj) as [-> _].
  - split; [|split].
    + rewrite accumulate_shape. simpl. by rewrite float_shape.
    + unfold well_formed. rewrite accumulate_shape. simpl.
      by rewrite float_shape, Hs0.
    + intros j Hj.
      by destruct (accumulate_at t0 w0 rest (numel shape) j Hlen Hj) as [-> _].
Qed.

Lemma merged_value_contributions loaded1 loaded2 key :
  contributions loaded1 key = contributions loaded2 key →
  merged_value loaded1 key = merged_value loaded2 key.
Proof.
  intros Hc. unfold merged_value. by rewrite !merge_key_contributions, Hc.
Qed.

Lemma elem_of_all_keys_contributions loaded key :
  key ∈ all_keys loaded ↔ contributions loaded key ≠ [].
Proof.
  split.
  - intros Hin Hnil. by apply contributions_nil in Hnil.
  - intros Hne. destruct (decide (key ∈ all_keys loaded)) as [|Hn]; [done|].
    destruct Hne. by apply contributions_nil.
Qed.

(** X2: an input that does not hold a key has no influence on it:
    with or without that input, the same tensor is stored under the key
    and the key is skipped or not alike. *)
Theorem input_without_key_is_ignored
    (pre post : list (string * model_data E W)) md key
    (out1 out2 : list (event W)) :
  state_dict md.2 !! key = None →
  merged_state_dict (merge_loaded (pre ++ md :: post) out1) !! key
  = merged_state_dict (merge_loaded (pre ++ post) out2) !! key ∧
  (key ∈ skipped_keys (merge_loaded (pre ++ md :: post) out1) ↔
   key ∈ skipped_keys (merge_loaded (pre ++ post) out2)).
Proof.
  intros Hnone.
  assert (contributions (pre ++ md :: post) key = contributions (pre ++ post) key)
    as Hc.
  { unfold contributions. change (md :: post) with ([md] ++ post).
    rewrite !omap_app. simpl. by rewrite Hnone. }
  split.
  - rewrite !merge_loaded_lookup. by apply merged_value_contributions.
  - rewrite !elem_of_skipped, !elem_of_all_keys_contributions, Hc.
    by rewrite (merged_value_contributions _ _ _ Hc).
Qed.

(** X3: a key is in [skipped_keys] exactly when two inputs hold it with
    tensors of different shapes. *)
Theorem skipped_iff_shape_mismatch loaded (out0 : list (event W)) key :
  key ∈ skipped_keys (merge_loaded loaded out0) ↔
  ∃ md1 md2 t1 t2,
    md1 ∈ loaded ∧ md2 ∈ loaded ∧
    state_dict md1.2 !! key = Some t1 ∧
    state_dict md2.2 !! key = Some t2 ∧
    t_shape t1 ≠ t_shape t2.
Proof.
  rewrite elem_of_skipped. split.
  - intros [Hin Hnone]. unfold merged_value in Hnone.
    rewrite merge_key_contributions in Hnone.
    destruct (contributions loaded key) as [|[t0 w0] rest] eqn:Hc.
    { by apply contributions_nil in Hc. }
    case_bool_decide as Hex; [|done].
    apply Exists_exists in Hex as ([t w] & Htw & Hne). simpl in Hne.
    assert ((t0, w0) ∈ contributions loaded key) as H0 by (rewrite Hc; left).
    assert ((t, w) ∈ contributions loaded key) as H1
      by (rewrite Hc; by right).
    apply elem_of_contributions in H0 as (md0 & ? & ? & _).
    apply elem_of_contributions in H1 as (md1 & ? & ? & _).
    exists md1, md0, t, t0. done.
  - intros (md1 & md2 & t1 & t2 & H1 & H2 & Ht1 & Ht2 & Hne). split.
    + rewrite all_keys_union, elem_of_union_keys. eauto.
    + unfold merged_value.
      by rewrite (merged_value_mismatch _ _ _ _ _ _ H1 H2 Ht1 Ht2 Hne).
Qed.

(** X5: a merged tensor has the shape of every input tensor of its
    key, and it holds as many elements as that shape says when the
    input tensors do. *)
Theorem merged_tensor_keeps_shape loaded (out0 : list (event W)) key t md u :
  merged_state_dict (merge_loaded loaded out0) !! key = Some t →
  md ∈ loaded →
  state_dict md.2 !! key = Some u →
  t_shape t = t_shape u ∧
  ((∀ md' u', md' ∈ loaded → state_dict md'.2 !! key = Some u' →
              well_formed u') →
   well_formed t).
Proof.
  rewrite merge_loaded_lookup. intros Hv Hmd Hu.
  assert ((u, weight md.2) ∈ contributions loaded key) as Hin
    by (apply elem_of_contributions; eauto).
  unfold merged_value in Hv. rewrite merge_key_contributions in Hv.
  destruct (contributions loaded key) as [|[t0 w0] rest] eqn:Hc; [done|].
  case_bool_decide as Hex; [done|].
  assert (Forall (λ tw : tensor E * W, t_shape tw.1 = t_shape t0) rest) as Hsh.
  { apply Forall_forall. intros tw Htw.
    destruct (decide (t_shape tw.1 = t_shape t0)) as [|Hne]; [done|].
    destruct Hex. apply Exists_exists. eauto. }
  assert (t_shape t = t_shape t0) as Ht.
  { simpl in Hv. injection Hv as <-.
    case_match; simpl; rewrite accumulate_shape; simpl; apply float_shape. }
  split.
  - rewrite Ht. apply elem_of_cons in Hin as [[= -> _]|Hin]; [done|].
    rewrite Forall_forall in Hsh. symmetry. apply (Hsh _ Hin).
  - intros Hwf.
    assert (Forall (λ tw : tensor E * W,
                      length (t_data tw.1) = numel (t_shape t0))
                   ((t0, w0) :: rest)) as Hlen.
    { apply Forall_forall. intros [t' w'] Htw.
      assert ((t', w') ∈ contributions loaded key) as Hc' by (by rewrite Hc).
      apply elem_of_contributions in Hc' as (md' & Hmd' & Ht' & _).
      pose proof (Hwf md' t' Hmd' Ht') as Hwf'. unfold well_formed in Hwf'.
      simpl. rewrite Hwf'. f_equal.
      apply elem_of_cons in Htw as [[= -> _]|Htw]; [done|].
      rewrite Forall_forall in Hsh. apply (Hsh _ Htw). }
    apply Forall_cons in Hlen as [Hl0 Hlrest]. simpl in Hl0.
    assert (length (t_data (accumulate (mul_scalar (float_ t0) w0) rest))
            = numel (t_shape t0)) as Hlacc.
    { apply accumulate_length; [|done]. simpl.
      by rewrite length_fmap, float_length. }
    unfold well_formed. rewrite Ht. simpl in Hv. injection Hv as <-.
    case_match; simpl; by rewrite ?length_fmap.
Qed.

Lemma merge_step_output_eq loaded n i key st :
  output (merge_step loaded n i key st)
  = output st
    ++ (if decide (i `mod` 100 = 0)
        then [Progress i n (merged_count st) (length (skipped_keys st))]
        else [])
    ++ match merge_key loaded key with
       | Merged _ => []
       | ShapeMismatch => [SkipShapeMismatch key]
       | Failed e => [SkipError key e]
       end.
Proof.
  unfold merge_step.
  destruct (merge_key loaded key); case_decide; simpl;
    by rewrite <-?app_assoc, ?app_nil_r.
Qed.

Lemma merge_step_total loaded n i key st :
  merged_count (merge_step loaded n i key st)
  + length (skipped_keys (merge_step loaded n i key st))
  = S (merged_count st + length (skipped_keys st)).
Proof.
  unfold merge_step. destruct (merge_key loaded key); simpl;
    rewrite ?length_app; simpl; lia.
Qed.

Lemma merge_loop_skip_events loaded n i keys st k :
  SkipShapeMismatch k ∈ output (merge_loop loaded n i keys st) ↔
  SkipShapeMismatch k ∈ output st ∨
  (k ∈ keys ∧ merge_key loaded k = ShapeMismatch).
Proof.
  revert i st. induction keys as [|key l IH]; intros i st; simpl.
  - split; [by left|]. intros [?|[Hin _]]; [done|]. by apply elem_of_nil in Hin.
  - rewrite IH, merge_step_output_eq, !elem_of_app, elem_of_cons.
    split.
    + intros [[?|[Hp|Hs]]|[? ?]]; eauto.
      * case_decide; [|by apply elem_of_nil in Hp].
        by apply list_elem_of_singleton in Hp.
      * destruct (merge_key loaded key) eqn:Hk; try by apply elem_of_nil in Hs.
        -- apply list_elem_of_singleton in Hs as [= ->]. eauto.
        -- by apply list_elem_of_singleton in Hs.
    + intros [?|[[->|?] Hk]]; eauto.
      left. right. right. rewrite Hk. by left.
Qed.

Lemma merge_loop_error_events loaded n i keys st k e :
  SkipError k e ∈ output (merge_loop loaded n i keys st) →
  SkipError k e ∈ output st ∨ (k ∈ keys ∧ merge_key loaded k = Failed e).
Proof.
  revert i st. induction keys as [|key l IH]; intros i st; simpl; [by left|].
  intros [Hin|[? ?]]%IH; [|right; split; [by right|done]].
  rewrite merge_step_output_eq, !elem_of_app in Hin.
  destruct Hin as [?|[Hp|Hs]]; [by left| |].
  - case_decide; [|by apply elem_of_nil in Hp].
    by apply list_elem_of_singleton in Hp.
  - destruct (merge_key loaded key) eqn:Hk; try by apply elem_of_nil in Hs.
    + by apply list_elem_of_singleton in Hs.
    + apply list_elem_of_singleton in Hs as [= -> ->]. right. split; [left|done].
Qed.

Lemma merge_loop_progress loaded n i keys st i' n' m s :
  Progress i' n' m s ∈ output (merge_loop loaded n i keys st) →
  Progress i' n' m s ∈ output st ∨
  (n' = n ∧ i ≤ i' < i + length keys ∧ i' `mod` 100 = 0 ∧
   m + s + i = merged_count st + length (skipped_keys st) + i').
Proof.
  revert i st. induction keys as [|key l IH]; intros i st; simpl; [by left|].
  intros [Hin|(-> & Hi & Hmod & Hsum)]%IH.
  - rewrite merge_step_output_eq, !elem_of_app in Hin.
    destruct Hin as [?|[Hp|Hs]]; [by left| |].
    + case_decide; [|by apply elem_of_nil in Hp].
      apply list_elem_of_singleton in Hp as [= -> -> -> ->].
      right. repeat split; try done; lia.
    + destruct (merge_key loaded key);
        try (by apply elem_of_nil in Hs); by apply list_elem_of_singleton in Hs.
  - right. rewrite merge_step_total in Hsum. repeat split; try done; lia.
Qed.

Lemma merge_loop_progress_printed loaded n i keys st i' :
  i ≤ i' < i + length keys → i' `mod` 100 = 0 →
  ∃ m s, Progress i' n m s ∈ output (merge_loop loaded n i keys st).
Proof.
  revert i st. induction keys as [|key l IH]; intros i st Hi Hmod; simpl in *.
  { lia. }
  destruct (decide (i = i')) as [->|Hne].
  - exists (merged_count st), (length (skipped_keys st)).
    destruct (merge_loop_output loaded n (S i') l (merge_step loaded n i' key st))
      as (more & -> & _).
    rewrite merge_step_output_eq, decide_True by done.
    rewrite !elem_of_app. left. right. left. by left.
  - apply IH; [lia|done].
Qed.

(** X4: the [except] branch of the key loop is never taken: no error
    line is printed for any key, and the shape-mismatch line is printed
    for exactly the keys of [skipped_keys]. *)
Theorem no_key_fails fs dir models out st fs' :
  merge_models fs dir models out = (Ok st, fs') →
  (∀ key e, SkipError key e ∉ output st) ∧
  (∀ key, SkipShapeMismatch key ∈ output st ↔ key ∈ skipped_keys st).
Proof.
  intros (loaded & Hload & -> & _)%merge_models_inv.
  assert (∀ ev, ev ∈ weights_warning models →
                ∃ total, ev = WeightsWarning total) as Hw.
  { intros ev. unfold weights_warning. case_match.
    - intros ->%list_elem_of_singleton. eauto.
    - by intros ?%elem_of_nil. }
  split.
  - intros key e Hin. unfold merge_loaded, merge_loaded_from in Hin.
    apply merge_loop_error_events in Hin as [Hin|[Hk Hf]].
    + simpl in Hin. by destruct (Hw _ Hin).
    + apply (elem_of_sorted_native elements) in Hk; [|done].
      by apply merge_key_not_failed in Hf.
  - intros key. rewrite elem_of_skipped.
    unfold merge_loaded, merge_loaded_from. rewrite merge_loop_skip_events.
    rewrite (elem_of_sorted_native elements) by done. simpl. split.
    + intros [Hin|[Hk Hmis]]; [by destruct (Hw _ Hin)|].
      split; [done|]. unfold merged_value. by rewrite Hmis.
    + intros [Hk Hnone]. right. split; [done|].
      unfold merged_value in Hnone.
      destruct (merge_key loaded key) eqn:Hmk; [done|done|].
      by apply merge_key_not_failed in Hmk.
Qed.

(** X6: whatever the order in which the run iterates sets,
    [skipped_keys] lists the skipped keys in sorted order, each once. *)
Theorem skipped_keys_sorted (native : gset string → list string)
    fs dir models out st fs' :
  (∀ s, native s ≡ₚ elements s) →
  merge_models_from native fs dir models out = (Ok st, fs') →
  StronglySorted String.le (skipped_keys st) ∧ NoDup (skipped_keys st).
Proof.
  intros Hn Hm. unfold merge_models_from in Hm.
  destruct (load_models fs dir models []) as [loaded|]; [|done].
  injection Hm as <- _. unfold merge_loaded_from.
  rewrite merge_loop_skipped. simpl. split.
  - apply StronglySorted_filter, sorted_StronglySorted.
  - apply NoDup_filter, NoDup_sorted_native, Hn.
Qed.

(** X7: a progress line is printed for exactly the multiples of 100 up
    to the number of keys; it shows that number, and the merged and
    skipped counts it shows add up to [i - 1]: the line for key [i] is
    printed before key [i] is processed. *)
Theorem progress_lines fs dir models out loaded st fs' :
  load_models fs dir models [] = Ok loaded →
  merge_models fs dir models out = (Ok st, fs') →
  (∀ i n m s, Progress i n m s ∈ output st →
     n = size (union_keys loaded) ∧ 1 ≤ i ≤ n ∧ i `mod` 100 = 0 ∧
     m + s = i - 1) ∧
  (∀ i, 1 ≤ i ≤ size (union_keys loaded) → i `mod` 100 = 0 →
     ∃ m s, Progress i (size (union_keys loaded)) m s ∈ output st).
Proof.
  intros Hload Hm.
  destruct (merge_models_state _ _ _ _ _ _ _ Hload Hm) as [-> _].
  rewrite <-all_keys_union. unfold merge_loaded, merge_loaded_from. split.
  - intros i n m s Hin.
    apply merge_loop_progress in Hin as [Hin|(-> & Hi & Hmod & Hsum)].
    + simpl in Hin. unfold weights_warning in Hin. case_match.
      * by apply list_elem_of_singleton in Hin.
      * by apply elem_of_nil in Hin.
    + rewrite (length_sorted_native elements) in Hi by done.
      simpl in Hsum. repeat split; try done; lia.
  - intros i Hi Hmod. apply merge_loop_progress_printed; [|done].
    rewrite (length_sorted_native elements) by done. lia.
Qed.

Lemma load_models_acc fs dir models (acc loaded : list (string * model_data E W)) :
  NoDup (acc.*1 ++ models.*1) →
  load_models fs dir models acc = Ok loaded ↔
  ∃ l, loaded = acc ++ l ∧ Forall2 (loaded_from fs dir) models l.
Proof.
  revert acc. induction models as [|[name [file_name w]] l IH]; intros acc Hnd.
  - simpl. split.
    + intros [= <-]. exists []. by rewrite app_nil_r.
    + intros (l' & -> & ->%Forall2_nil_inv_l). by rewrite app_nil_r.
  - cbn [load_models].
    assert (name ∉ acc.*1) as Hfresh.
    { simpl in Hnd. apply NoDup_app in Hnd as (_ & Hdis & _).
      intros Hin. apply (Hdis _ Hin). left. }
    assert (NoDup ((acc ++ [(name, ModelData (E:=E) ∅ w)]).*1 ++ l.*1)) as Hnd'.
    { rewrite fmap_app, <-app_assoc. exact Hnd. }
    destruct (load_model_cases fs dir file_name)
      as [(sd & Hf & ->)|[[Hf ->]|[Hf ->]]]; simpl.
    + rewrite dict_set_fresh by done. rewrite IH.
      2:{ rewrite fmap_app, <-app_assoc. exact Hnd. }
      split.
      * intros (l' & -> & Hl'). exists ((name, ModelData sd w) :: l').
        rewrite <-app_assoc. split; [done|]. by constructor.
      * intros (l' & -> & Hl').
        apply Forall2_cons_inv_l in Hl'
          as ([n' [sd' w']] & l'' & (Hn & Hw & Hsd) & Hl'' & ->).
        simpl in *. subst. rewrite Hf in Hsd. injection Hsd as ->.
        exists l''. by rewrite <-app_assoc.
    + split; [done|]. intros (l' & _ & Hl').
      apply Forall2_cons_inv_l in Hl' as (md & _ & (_ & _ & Hsd) & _).
      simpl in Hsd. congruence.
    + split; [done|]. intros (l' & _ & Hl').
      apply Forall2_cons_inv_l in Hl' as (md & _ & (_ & _ & Hsd) & _).
      simpl in Hsd. congruence.
Qed.

(** X8: for distinct model names, loading succeeds exactly when every
    file is a readable checkpoint, and then [loaded_models] holds one
    entry per model, in the order of [models], under the model's name,
    with its weight and the mapping of its file. *)
Theorem load_models_in_order fs dir models loaded :
  NoDup models.*1 →
  load_models fs dir models [] = Ok loaded ↔
  Forall2 (λ m md,
             md.1 = m.1 ∧ weight md.2 = m.2.2 ∧
             fs !! joinpath dir m.2.1 = Some (Safetensors (state_dict md.2)))
          models loaded.
Proof.
  intros Hnd. rewrite load_models_acc by done. split.
  - by intros (l & -> & Hl).
  - intros Hl. by exists loaded.
Qed.

(** X9: after a successful merge, [load_model] on the output path
    returns the merged mapping, and every other path of the storage is
    as it was. *)
Theorem merge_output_round_trip fs dir models out st fs' :
  merge_models fs dir models out = (Ok st, fs') →
  load_model fs' dir out = Ok (merged_state_dict st) ∧
  ∀ path, path ≠ joinpath dir out → fs' !! path = fs !! path.
Proof.
  intros (loaded & _ & _ & ->)%merge_models_inv. split.
  - apply load_model_ok. unfold save_file. apply lookup_insert_eq.
  - intros path Hne. unfold save_file. by apply lookup_insert_ne.
Qed.

Lemma merged_value_single_one name (sd : gmap string (tensor E)) key :
  one_is_neutral →
  merged_value [(name, ModelData sd py_one)] key = float_ <$> sd !! key.
Proof.
  intros Hlaw. unfold merged_value. rewrite merge_key_contributions.
  unfold contributions. simpl. destruct (sd !! key) as [t|]; simpl; [|done].
  pose proof Hlaw as (Hadd & Hpos & _).
  replace (py_gtb (py_sum [py_one]) py_zero) with true
    by (unfold py_sum; simpl; by rewrite Hadd).
  f_equal. apply scale_by_one; [done|apply float_dtype].
Qed.

(** X10: merging the checkpoint that a merge wrote, alone and with
    weight 1.0, gives back the same mapping and skips nothing. *)
Theorem remerge_is_identity fs dir models out st fs' name out2 :
  one_is_neutral →
  merge_models fs dir models out = (Ok st, fs') →
  ∃ st2,
    merge_models fs' dir [(name, (out, py_one))] out2
    = (Ok st2, save_file (merged_state_dict st2) (joinpath dir out2) fs') ∧
    merged_state_dict st2 = merged_state_dict st ∧
    skipped_keys st2 = [].
Proof.
  intros Hlaw Hm.
  pose proof Hm as (loaded & _ & Hst & Hfs')%merge_models_inv.
  assert (fs' !! joinpath dir out = Some (Safetensors (merged_state_dict st)))
    as Hout by (rewrite Hfs'; apply lookup_insert_eq).
  pose proof (load_models_single fs' dir name out py_one _ Hout) as Hload.
  eexists. split; [by apply merge_models_loaded|].
  assert (∀ key, merged_value [(name, ModelData (merged_state_dict st) py_one)] key
                 = merged_state_dict st !! key) as Hv.
  { intros key. rewrite merged_value_single_one by done.
    destruct (merged_state_dict st !! key) as [t|] eqn:Ht; [|done]. simpl.
    f_equal. apply float_F32. rewrite Hst, merge_loaded_lookup in Ht.
    by eapply merged_value_dtype. }
  split.
  - apply map_eq. intros key. by rewrite merge_loaded_lookup, Hv.
  - apply elem_of_nil_inv. intros key [Hin Hnone]%elem_of_skipped.
    rewrite Hv in Hnone. rewrite all_keys_union, elem_of_union_keys in Hin.
    destruct Hin as (md & ->%list_elem_of_singleton & [t Ht]). simpl in Ht.
    by rewrite Ht in Hnone.
Qed.

(** X11: on the checkpoint that a merge wrote, [get_model_info] does
    not fail: it reports [merged_count] keys and shows the first five of
    them (all of them when there are fewer), without repeats. *)
Theorem model_info_of_merged
    (keys_order : gmap string (tensor E) → list string)
    fs dir models out st fs' :
  (∀ sd, keys_order sd ≡ₚ elements (dom sd)) →
  merge_models fs dir models out = (Ok st, fs') →
  ∃ example_keys total_params,
    get_model_info keys_order fs' dir out
    = ModelInfo out (merged_count st) example_keys total_params ∧
    length example_keys = merged_count st `min` 5 ∧
    NoDup example_keys ∧
    ∀ key, key ∈ example_keys → is_Some (merged_state_dict st !! key).
Proof.
  intros Hord Hm.
  pose proof Hm as (loaded & _ & Hst & Hfs')%merge_models_inv.
  assert (load_model fs' dir out = Ok (merged_state_dict st)) as Hload.
  { apply load_model_ok. rewrite Hfs'. apply lookup_insert_eq. }
  unfold get_model_info. rewrite Hload.
  assert (merged_count st = size (merged_state_dict st)) as Hcount
    by (rewrite Hst; apply merge_loaded_size).
  eexists _, _. split; [by rewrite Hcount|].
  split; [|split].
  - assert (length (keys_order (merged_state_dict st))
            = size (merged_state_dict st)) as Hlen.
    { by rewrite Hord, <-size_dom. }
    rewrite length_take, Hlen, Hcount. lia.
  - apply (sublist_NoDup _ (keys_order (merged_state_dict st)));
      [|apply sublist_take].
    rewrite Hord. apply NoDup_elements.
  - intros key (i & Hi & _)%elem_of_take.
    apply list_elem_of_lookup_2 in Hi. rewrite Hord in Hi.
    by apply elem_of_elements, elem_of_dom in Hi.
Qed.

(** X12: [main] exits with status 0 after writing the merged
    checkpoint to models/merged_sdxl.safetensors when its two configured
    files are readable checkpoints; otherwise it exits with status 1 and
    leaves the storage as it was. *)
Theorem main_exit_status (w_060 w_040 : W) fs :
  let readable := λ file_name,
    ∃ sd, fs !! joinpath MODELS_DIR file_name = Some (Safetensors sd) in
  (readable "JakeSubwaySurfer1-10 (4).safetensors" ∧
   readable "realvisxlV50_v50LightningBakedvae.safetensors" →
   ∃ st, main w_060 w_040 fs
         = (0, save_file (merged_state_dict st)
                         (joinpath MODELS_DIR OUTPUT_FILE) fs)) ∧
  (¬ (readable "JakeSubwaySurfer1-10 (4).safetensors" ∧
      readable "realvisxlV50_v50LightningBakedvae.safetensors") →
   main w_060 w_040 fs = (1, fs)).
Proof.
  intros readable.
  unfold main, merge_models, merge_models_from, MODELS_TO_MERGE. split.
  - intros [[sd1 H1] [sd2 H2]].
    rewrite (load_models_two fs MODELS_DIR "jake" "realvis" _ _ w_060 w_040
               sd1 sd2) by done.
    eauto.
  - intros Hnot.
    destruct (load_models fs MODELS_DIR _ []) as [loaded|e] eqn:Hload; [|done].
    destruct Hnot. apply load_models_acc in Hload as (l & _ & Hl).
    2:{ simpl. compute_done. }
    apply Forall2_cons_inv_l in Hl as (md1 & l1 & (_ & _ & Hsd1) & Hl & _).
    apply Forall2_cons_inv_l in Hl as (md2 & l2 & (_ & _ & Hsd2) & _ & _).
    split; eexists; eassumption.
Qed.

(** X17: [on_merge] returns what [merge_models] returned: the path of
    the output is never empty, so it is never replaced by [None]. *)
Theorem on_merge_passes_result fs dir files (w1 w2 : W) :
  on_merge fs dir files w1 w2 = app_merge_models fs dir files w1 w2.
Proof.
  unfold on_merge, app_merge_models, app_merge_models_from.
  destruct (py_eqb _ _); [done|].
  destruct files as [|p1 [|p2 more]]; [done..|].
  destruct (load_file fs p1) as [m1|]; [|done]. simpl.
  destruct (load_file fs p2) as [m2|]; [|done]. simpl.
  destruct (app_merge_dicts_from _ _ _ _ _); [|done].
  by rewrite decide_False by apply joinpath_nonempty.
Qed.

Lemma load_file_cases fs path :
  (∃ sd, fs !! path = Some (Safetensors sd) ∧ load_file fs path = Ok sd) ∨
  ((∀ sd, fs !! path ≠ Some (Safetensors sd)) ∧
   load_file fs path = Raise (LoadError path)).
Proof.
  unfold load_file. destruct (fs !! path) as [[sd|]|]; eauto.
Qed.

(** X13: app.py's merge ends in one of four ways.  Without a path and
    with the storage untouched: the zero-weights message, the
    too-few-models message, or the message of a load failure of the
    first or second file.  Or with the path of the output, which was
    written, both files being readable checkpoints.  No other exception
    can arise. *)
Theorem app_outcomes fs dir files (w1 w2 : W) :
  let out := joinpath dir "merged_model.safetensors" in
  (∃ status,
     app_merge_models fs dir files w1 w2 = ((status, None), fs) ∧
     (status = BothWeightsZero ∧ py_eqb (py_add w1 w2) py_zero = true ∨
      status = NeedTwoModels files ∧ length files < 2 ∨
      ∃ path, (files !! 0 = Some path ∨ files !! 1 = Some path) ∧
              status = AppError (LoadError path) ∧
              ∀ sd, fs !! path ≠ Some (Safetensors sd))) ∨
  (∃ path1 path2 more model1 model2 merged,
     files = path1 :: path2 :: more ∧
     fs !! path1 = Some (Safetensors model1) ∧
     fs !! path2 = Some (Safetensors model2) ∧
     app_merge_models fs dir files w1 w2
     = ((MergeDone path1 path2 (py_div w1 (py_add w1 w2))
                   (py_div w2 (py_add w1 w2)) (size merged), Some out),
        save_file merged out fs)).
Proof.
  intros out.
  destruct (py_eqb (py_add w1 w2) py_zero) eqn:Hz.
  { left. exists BothWeightsZero. split; [|by left].
    unfold app_merge_models, app_merge_models_from. by rewrite Hz. }
  destruct files as [|p1 [|p2 more]].
  { left. eexists. split; [|right; left; split; [done|simpl; lia]].
    unfold app_merge_models, app_merge_models_from. by rewrite Hz. }
  { left. eexists. split; [|right; left; split; [done|simpl; lia]].
    unfold app_merge_models, app_merge_models_from. by rewrite Hz. }
  destruct (load_file_cases fs p1) as [(m1 & H1 & Hl1)|[H1 Hl1]].
  2:{ left. exists (AppError (LoadError p1)). split.
      - unfold app_merge_models, app_merge_models_from. by rewrite Hz, Hl1.
      - right. right. exists p1. eauto. }
  destruct (load_file_cases fs p2) as [(m2 & H2 & Hl2)|[H2 Hl2]].
  2:{ left. exists (AppError (LoadError p2)). split.
      - unfold app_merge_models, app_merge_models_from. by rewrite Hz, Hl1, Hl2.
      - right. right. exists p2. eauto. }
  right.
  destruct (app_merge_models_ok fs dir p1 p2 more m1 m2 w1 w2 H1 H2 Hz)
    as (merged & Hm & _).
  exists p1, p2, more, m1, m2, merged. done.
Qed.

(** X14: app.py never drops a key: the merged mapping holds exactly
    the keys of the two checkpoints, and the number of keys it reports
    is the size of their union. *)
Theorem app_keeps_every_key fs dir path1 path2 more
    (model1 model2 : gmap string (tensor E)) (w1 w2 : W) :
  fs !! path1 = Some (Safetensors model1) →
  fs !! path2 = Some (Safetensors model2) →
  py_eqb (py_add w1 w2) py_zero = false →
  ∃ merged,
    app_merge_models fs dir (path1 :: path2 :: more) w1 w2
    = ((MergeDone path1 path2 (py_div w1 (py_add w1 w2))
                  (py_div w2 (py_add w1 w2))
                  (size (dom model1 ∪ dom model2)),
        Some (joinpath dir "merged_model.safetensors")),
       save_file merged (joinpath dir "merged_model.safetensors") fs) ∧
    dom merged = dom model1 ∪ dom model2.
Proof.
  intros H1 H2 Hz.
  destruct (app_merge_models_ok fs dir path1 path2 more model1 model2 w1 w2
              H1 H2 Hz) as (merged & Hm & Hlook).
  assert (dom merged = dom model1 ∪ dom model2) as Hdom.
  { apply set_eq. intros k.
    by rewrite elem_of_dom, Hlook, app_value_is_Some. }
  exists merged. split; [|done]. by rewrite Hm, <-Hdom, size_dom.
Qed.

(** X15: for a key that both checkpoints hold with one shape, app.py
    stores a float32 tensor of that shape whose element [j] is
    [x1 * (w1 / (w1 + w2)) + x2 * (w2 / (w1 + w2))]: the weights are
    normalised first and nothing is divided afterwards. *)
Theorem app_weighted_sum fs dir path1 path2 more
    (model1 model2 : gmap string (tensor E)) (w1 w2 : W) key t1 t2 :
  fs !! path1 = Some (Safetensors model1) →
  fs !! path2 = Some (Safetensors model2) →
  py_eqb (py_add w1 w2) py_zero = false →
  model1 !! key = Some t1 →
  model2 !! key = Some t2 →
  t_shape t1 = t_shape t2 →
  ∃ status merged t,
    app_merge_models fs dir (path1 :: path2 :: more) w1 w2
    = ((status, Some (joinpath dir "merged_model.safetensors")),
       save_file merged (joinpath dir "merged_model.safetensors") fs) ∧
    merged !! key = Some t ∧
    t_dtype t = F32 ∧ t_shape t = t_shape t1 ∧
    ∀ j, t_data t !! j
         = (x1 ← t_data (float_ t1) !! j;
            x2 ← t_data (float_ t2) !! j;
            Some (e_add F32 (e_mul F32 x1 (py_div w1 (py_add w1 w2)))
                            (e_mul F32 x2 (py_div w2 (py_add w1 w2))))).
Proof.
  intros H1 H2 Hz Ht1 Ht2 Hshape.
  destruct (app_merge_models_ok fs dir path1 path2 more model1 model2 w1 w2
              H1 H2 Hz) as (merged & Hm & Hlook).
  eexists _, merged, _. split; [exact Hm|]. split.
  { rewrite Hlook. unfold app_value. rewrite Ht1, Ht2.
    by rewrite decide_True. }
  split; [apply float_dtype|]. split; [apply float_shape|].
  intros j. simpl. rewrite lookup_zip_with, !list_lookup_fmap, !float_dtype.
  destruct (t_data (float_ t1) !! j); simpl; [|done].
  by destruct (t_data (float_ t2) !! j).
Qed.

End More.

(** ** Exact arithmetic and the scenarios *)

Lemma Qc_pos_nonzero (w : Qc) : (0 < w → w ≠ 0)%Qc.
Proof. intros Hw ->. by apply Qclt_not_eq in Hw. Qed.

Lemma Qc_sum_pos_nonzero (w1 w2 : Qc) : (0 < w1 → 0 < w2 → w1 + w2 ≠ 0)%Qc.
Proof.
  intros H1 H2. apply Qc_pos_nonzero, Qcplus_pos_nonneg; [done|].
  by apply Qclt_le_weak.
Qed.

Lemma exact_mean_of_two (w1 w2 : Qc) (d1 d2 : list Qc) :
  (w1 + w2)%Qc ≠ 0%Qc →
  (λ x, x / (0 + w1 + w2))%Qc
    <$> zip_with Qcplus ((λ x, x * w1)%Qc <$> d1) ((λ x, x * w2)%Qc <$> d2)
  = zip_with Qcplus ((λ x, x * (w1 / (w1 + w2)))%Qc <$> d1)
                    ((λ x, x * (w2 / (w1 + w2)))%Qc <$> d2).
Proof.
  intros Hs. revert d2. induction d1 as [|x d1 IH]; intros [|y d2]; simpl;
    try done.
  f_equal; [|apply IH]. field. exact Hs.
Qed.

Lemma exact_single (w x : Qc) : (w ≠ 0 → x * w / (0 + w) = x)%Qc.
Proof. intros Hw. field. exact Hw. Qed.

(** X16: in exact arithmetic, on two float32 checkpoints without shape
    conflicts and with positive weights, merge.py and app.py write the
    same mapping. *)
Theorem exact_merges_agree (fs : gmap string (file Qc)) dir name1 name2
    file1 file2 (w1 w2 : Qc) out (model1 model2 : gmap string (tensor Qc)) :
  name1 ≠ name2 →
  fs !! joinpath dir file1 = Some (Safetensors model1) →
  fs !! joinpath dir file2 = Some (Safetensors model2) →
  (0 < w1)%Qc → (0 < w2)%Qc →
  (∀ k t, model1 !! k = Some t → t_dtype t = F32) →
  (∀ k t, model2 !! k = Some t → t_dtype t = F32) →
  (∀ k t1 t2, model1 !! k = Some t1 → model2 !! k = Some t2 →
              t_shape t1 = t_shape t2) →
  ∃ st status,
    merge_models fs dir [(name1, (file1, w1)); (name2, (file2, w2))] out
    = (Ok st, save_file (merged_state_dict st) (joinpath dir out) fs) ∧
    app_merge_models fs dir [joinpath dir file1; joinpath dir file2] w1 w2
    = ((status, Some (joinpath dir "merged_model.safetensors")),
       save_file (merged_state_dict st)
                 (joinpath dir "merged_model.safetensors") fs).
Proof.
  intros Hne H1 H2 Hw1 Hw2 Hd1 Hd2 Hshape.
  pose proof (Qc_sum_pos_nonzero _ _ Hw1 Hw2) as Hs.
  pose proof (load_models_two fs dir name1 name2 file1 file2 w1 w2 _ _ Hne H1 H2)
    as Hload.
  destruct (app_merge_models_ok fs dir _ _ [] model1 model2 w1 w2 H1 H2)
    as (merged & Hm & Hlook).
  { simpl. by apply bool_decide_eq_false. }
  eexists _, _. split; [by apply merge_models_loaded|].
  rewrite Hm. do 3 f_equal. apply map_eq. intros key.
  rewrite Hlook, merge_loaded_lookup. unfold app_value.
  destruct (model1 !! key) as [t1|] eqn:Ht1, (model2 !! key) as [t2|] eqn:Ht2.
  - rewrite decide_True by eauto.
    rewrite (merged_value_same_shape _ key t1 w1 [(t2, w2)]).
    2:{ unfold contributions. simpl. by rewrite Ht1, Ht2. }
    2:{ constructor; [|done]. simpl. symmetry. eauto. }
    replace (py_gtb (py_sum (w1 :: [(t2, w2)].*2)) py_zero) with true.
    2:{ symmetry. apply bool_decide_eq_true. unfold py_sum. simpl.
        rewrite Qcplus_0_l.
        apply Qcplus_pos_nonneg; [done|]. by apply Qclt_le_weak. }
    unfold accumulate. simpl. rewrite !float_F32 by eauto. f_equal.
    unfold div_scalar, add_tensor, mul_scalar. simpl. f_equal.
    symmetry. by apply exact_mean_of_two.
  - rewrite (merged_value_same_shape _ key t1 w1 []).
    2:{ unfold contributions. simpl. by rewrite Ht1, Ht2. }
    2:{ done. }
    replace (py_gtb (py_sum (w1 :: [].*2)) py_zero) with true.
    2:{ symmetry. apply bool_decide_eq_true. unfold py_sum. simpl.
        by rewrite Qcplus_0_l. }
    f_equal. symmetry. rewrite float_F32 by eauto.
    apply div_mul_exact; [eauto|]. intros x. apply exact_single.
    by apply Qc_pos_nonzero.
  - rewrite (merged_value_same_shape _ key t2 w2 []).
    2:{ unfold contributions. simpl. by rewrite Ht1, Ht2. }
    2:{ done. }
    replace (py_gtb (py_sum (w2 :: [].*2)) py_zero) with true.
    2:{ symmetry. apply bool_decide_eq_true. unfold py_sum. simpl.
        by rewrite Qcplus_0_l. }
    f_equal. symmetry. rewrite float_F32 by eauto.
    apply div_mul_exact; [eauto|]. intros x. apply exact_single.
    by apply Qc_pos_nonzero.
  - unfold merged_value. rewrite merge_key_contributions.
    unfold contributions. simpl. by rewrite Ht1, Ht2.
Qed.

Lemma load_mix : load_models disk "models" models_mix [] = Ok loaded_mix.
Proof. vm_compute. reflexivity. Qed.

Lemma merge_mix :
  merge_models disk "models" models_mix "out.safetensors"
  = (Ok state_mix, disk_mix).
Proof. apply merge_models_loaded, load_mix. Qed.

Lemma renormalised_over_contributors_witness :
  ∃ t,
    merged_state_dict state_mix !! "w1" = Some t ∧
    t_shape t = [2; 2] ∧ well_formed t ∧
    ∀ j, j < numel [2; 2] →
      t_data t !! j
      = if py_gtb (py_sum (contributions loaded_mix "w1").*2) py_zero
        then weighted_mean_at (contributions loaded_mix "w1") j
        else weighted_sum_at (contributions loaded_mix "w1") j.
Proof.
  apply (renormalised_over_contributors disk "models" models_mix
           "out.safetensors" loaded_mix state_mix disk_mix "w1" [2; 2]).
  - exact load_mix.
  - exact merge_mix.
  - discriminate.
  - repeat constructor.
Defined.

Example mix_contributions :
  contributions loaded_mix "w1" = [(ones, dec 6 10); (threes, dec 4 10)].
Proof. reflexivity. Qed.

Lemma input_without_key_is_ignored_witness :
  merged_state_dict
    (merge_loaded ([("a", ModelData model_a (dec 6 10))]
                   ++ ("half", ModelData model_half (dec 1 1))
                   :: [("b", ModelData model_b (dec 4 10))]) []) !! "w1"
  = merged_state_dict
      (merge_loaded ([("a", ModelData model_a (dec 6 10))]
                     ++ [("b", ModelData model_b (dec 4 10))]) []) !! "w1" ∧
  ("w1" ∈ skipped_keys
            (merge_loaded ([("a", ModelData model_a (dec 6 10))]
                           ++ ("half", ModelData model_half (dec 1 1))
                           :: [("b", ModelData model_b (dec 4 10))]) []) ↔
   "w1" ∈ skipped_keys
            (merge_loaded ([("a", ModelData model_a (dec 6 10))]
                           ++ [("b", ModelData model_b (dec 4 10))]) [])).
Proof.
  apply (input_without_key_is_ignored
           [("a", ModelData model_a (dec 6 10))]
           [("b", ModelData model_b (dec 4 10))]
           ("half", ModelData model_half (dec 1 1)) "w1" [] []).
  reflexivity.
Defined.

Lemma merged_tensor_keeps_shape_witness :
  let t := div_scalar (accumulate (mul_scalar (float_ ones) (dec 6 10))
                                  [(threes, dec 4 10)])
                      (py_sum [dec 6 10; dec 4 10]) in
  t_shape t = t_shape threes ∧
  ((∀ md' u', md' ∈ loaded_mix → state_dict md'.2 !! "w1" = Some u' →
              well_formed u') →
   well_formed t).
Proof.
  intros t.
  apply (merged_tensor_keeps_shape loaded_mix (weights_warning models_mix)
           "w1" t ("b", ModelData model_b (dec 4 10)) threes).
  - vm_compute. reflexivity.
  - right. right. left.
  - reflexivity.
Defined.

Lemma no_key_fails_witness :
  (∀ key e, SkipError key e ∉ output state_mix) ∧
  (∀ key, SkipShapeMismatch key ∈ output state_mix ↔
          key ∈ skipped_keys state_mix).
Proof.
  apply (no_key_fails disk "models" models_mix "out.safetensors"
           state_mix disk_mix).
  exact merge_mix.
Defined.

Lemma merge_clash :
  merge_models_from (reverse ∘ elements) disk_clash "models" models_clash
                    "out.safetensors"
  = (Ok state_clash,
     save_file (merged_state_dict state_clash)
               (joinpath "models" "out.safetensors") disk_clash).
Proof. vm_compute. reflexivity. Qed.

Lemma skipped_keys_sorted_witness :
  (reverse ∘ elements) (dom model_c ∪ dom model_d) = ["k0"; "k2"; "k1"] ∧
  skipped_keys state_clash = ["k1"; "k2"] ∧
  StronglySorted String.le (skipped_keys state_clash) ∧
  NoDup (skipped_keys state_clash).
Proof.
  split; [vm_compute; reflexivity|].
  split; [vm_compute; reflexivity|].
  apply (skipped_keys_sorted (reverse ∘ elements) disk_clash "models"
           models_clash "out.safetensors" state_clash
           (save_file (merged_state_dict state_clash)
                      (joinpath "models" "out.safetensors") disk_clash)).
  - intros s. apply reverse_Permutation.
  - exact merge_clash.
Defined.

Lemma load_100 :
  load_models disk_100 "models" models_100 []
  = Ok [("big", ModelData model_100 (dec 1 1))].
Proof. apply load_models_single. reflexivity. Qed.

Lemma progress_lines_witness :
  (∀ i n m s, Progress i n m s ∈ output state_100 →
     n = size (union_keys [("big", ModelData model_100 (dec 1 1))]) ∧
     1 ≤ i ≤ n ∧ i `mod` 100 = 0 ∧ m + s = i - 1) ∧
  (∀ i, 1 ≤ i ≤ size (union_keys [("big", ModelData model_100 (dec 1 1))]) →
     i `mod` 100 = 0 →
     ∃ m s, Progress i (size (union_keys [("big", ModelData model_100 (dec 1 1))]))
                     m s ∈ output state_100).
Proof.
  apply (progress_lines disk_100 "models" models_100 "out.safetensors"
           [("big", ModelData model_100 (dec 1 1))] state_100
           (save_file (merged_state_dict state_100)
                      (joinpath "models" "out.safetensors") disk_100)).
  - exact load_100.
  - apply merge_models_loaded, load_100.
Defined.

Example progress_line_100 : output state_100 = [Progress 100 100 99 0].
Proof. vm_compute. reflexivity. Qed.

Lemma load_models_in_order_witness :
  load_models disk "models" models_mix [] = Ok loaded_mix ↔
  Forall2 (λ (m : string * (string * Qc)) (md : string * model_data Qc Qc),
             md.1 = m.1 ∧ weight md.2 = m.2.2 ∧
             disk !! joinpath "models" m.2.1
             = Some (Safetensors (state_dict md.2)))
          models_mix loaded_mix.
Proof.
  apply (load_models_in_order disk "models" models_mix loaded_mix).
  compute_done.
Defined.

Lemma merge_output_round_trip_witness :
  load_model disk_mix "models" "out.safetensors"
  = Ok (merged_state_dict state_mix) ∧
  ∀ path, path ≠ joinpath "models" "out.safetensors" →
          disk_mix !! path = disk !! path.
Proof.
  apply (merge_output_round_trip disk "models" models_mix "out.safetensors"
           state_mix disk_mix).
  exact merge_mix.
Defined.

Lemma remerge_is_identity_witness :
  ∃ st2,
    merge_models disk_mix "models" [("again", ("out.safetensors", py_one))]
                 "out2.safetensors"
    = (Ok st2, save_file (merged_state_dict st2)
                         (joinpath "models" "out2.safetensors") disk_mix) ∧
    merged_state_dict st2 = merged_state_dict state_mix ∧
    skipped_keys st2 = [].
Proof.
  apply (remerge_is_identity disk "models" models_mix "out.safetensors"
           state_mix disk_mix "again" "out2.safetensors").
  - exact exact_one_is_neutral.
  - exact merge_mix.
Defined.

Lemma model_info_of_merged_witness :
  ∃ example_keys total_params,
    get_model_info (elements ∘ dom) disk_mix "models" "out.safetensors"
    = ModelInfo "out.safetensors" (merged_count state_mix)
                example_keys total_params ∧
    length example_keys = merged_count state_mix `min` 5 ∧
    NoDup example_keys ∧
    ∀ key, key ∈ example_keys → is_Some (merged_state_dict state_mix !! key).
Proof.
  apply (model_info_of_merged (elements ∘ dom) disk "models" models_mix
           "out.safetensors" state_mix disk_mix).
  - intros sd. reflexivity.
  - exact merge_mix.
Defined.

Lemma app_keeps_every_key_witness :
  ∃ merged,
    app_merge_models disk "models"
      ["models/half.safetensors"; "models/bad.safetensors"] (dec 1 2) (dec 1 2)
    = ((MergeDone "models/half.safetensors" "models/bad.safetensors"
                  (py_div (dec 1 2) (py_add (dec 1 2) (dec 1 2)))
                  (py_div (dec 1 2) (py_add (dec 1 2) (dec 1 2)))
                  (size (dom model_half ∪ dom model_bad)),
        Some (joinpath "models" "merged_model.safetensors")),
       save_file merged (joinpath "models" "merged_model.safetensors") disk) ∧
    dom merged = dom model_half ∪ dom model_bad.
Proof.
  apply (app_keeps_every_key disk "models" "models/half.safetensors"
           "models/bad.safetensors" [] model_half model_bad (dec 1 2) (dec 1 2)).
  - reflexivity.
  - reflexivity.
  - reflexivity.
Defined.

Lemma app_weighted_sum_witness :
  ∃ status merged t,
    app_merge_models disk "models"
      ["models/a.safetensors"; "models/b.safetensors"] (dec 6 10) (dec 4 10)
    = ((status, Some (joinpath "models" "merged_model.safetensors")),
       save_file merged (joinpath "models" "merged_model.safetensors") disk) ∧
    merged !! "w1" = Some t ∧
    t_dtype t = F32 ∧ t_shape t = t_shape ones ∧
    ∀ j, t_data t !! j
         = (x1 ← t_data (float_ ones) !! j;
            x2 ← t_data (float_ threes) !! j;
            Some (e_add F32
                    (e_mul F32 x1 (py_div (dec 6 10)
                                          (py_add (dec 6 10) (dec 4 10))))
                    (e_mul F32 x2 (py_div (dec 4 10)
                                          (py_add (dec 6 10) (dec 4 10)))))).
Proof.
  apply (app_weighted_sum disk "models" "models/a.safetensors"
           "models/b.safetensors" [] model_a model_b (dec 6 10) (dec 4 10)
           "w1" ones threes).
  - reflexivity.
  - reflexivity.
  - reflexivity.
  - reflexivity.
  - reflexivity.
  - reflexivity.
Defined.

Lemma exact_merges_agree_witness :
  ∃ st status,
    merge_models disk "models"
      [("a", ("a.safetensors", dec 6 10)); ("b", ("b.safetensors", dec 4 10))]
      "out.safetensors"
    = (Ok st, save_file (merged_state_dict st)
                        (joinpath "models" "out.safetensors") disk) ∧
    app_merge_models disk "models"
      [joinpath "models" "a.safetensors"; joinpath "models" "b.safetensors"]
      (dec 6 10) (dec 4 10)
    = ((status, Some (joinpath "models" "merged_model.safetensors")),
       save_file (merged_state_dict st)
                 (joinpath "models" "merged_model.safetensors") disk).
Proof.
  apply (exact_merges_agree disk "models" "a" "b" "a.safetensors"
           "b.safetensors" (dec 6 10) (dec 4 10) "out.safetensors"
           model_a model_b).
  - discriminate.
  - reflexivity.
  - reflexivity.
  - reflexivity.
  - reflexivity.
  - intros k t Hk. unfold model_a in Hk.
    apply lookup_singleton_Some in Hk as [_ <-]. reflexivity.
  - intros k t Hk. unfold model_b in Hk.
    apply lookup_singleton_Some in Hk as [_ <-]. reflexivity.
  - intros k t1 t2 H1 H2. unfold model_a in H1. unfold model_b in H2.
    apply lookup_singleton_Some in H1 as [_ <-].
    apply lookup_singleton_Some in H2 as [_ <-]. reflexivity.
Defined.
